(** * Conformance engine of [scripts/openapi-conformance.py]

    A shallow embedding of the OpenAPI conformance checker: the schema
    resolver ([OpenAPIResolver]), the type classifier, the schema differ,
    the endpoint matcher, the violation policy and the report aggregation
    ([ConformanceChecker]), followed by the properties of the written
    specification that were checked against them.

    Conventions of the embedding.
    - A decoded JSON document is a value of [json]; a Python [dict] is an
      association list in insertion order (assignment to an existing key
      keeps its position, a new key goes last), as CPython dicts behave.
      Numbers are integers; floating point numbers are not represented.
    - A run either returns or raises: [result] carries the exception.  The
      constructor [Unmodelled] marks the few places where Python would go on
      with a value that is not a JSON value with string keys (a [dict] built
      from a list of pairs, the characters of a string used as a collection,
      the [repr] of a container): the embedding stops there instead of
      guessing.
    - The three recursive procedures ([resolve_schema] with [resolve_ref] and
      [_merge_schemas], [_get_type_string], [_compare_schemas]) take the
      number of nested calls the interpreter still allows ([fuel]); a call
      made with none left raises [RecursionError].
    - The iteration order of a Python [set] is not specified; it is a
      parameter ([PySet]) of which only the elements are known. *)

From Stdlib Require Import ZArith DecimalString Ascii String.
From stdpp Require Import base option list strings gmap.

Local Open Scope string_scope.
Local Open Scope list_scope.

(** ** JSON values *)

#[warnings="-register-all"]
Inductive json : Type :=
| JNull
| JBool (b : bool)
| JNum (n : Z)
| JStr (s : string)
| JArr (l : list json)
| JObj (kvs : list (string * json)).

Abbreviation dict := (list (string * json)).

(** ** Outcomes of a run *)

Inductive exn : Type :=
| RecursionError
| TypeError
| AttributeError
| ValueError
| KeyError
| Unmodelled.

Inductive result (A : Type) : Type :=
| Ok (a : A)
| Raise (e : exn).

Arguments Ok {A} a.
Arguments Raise {A} e.

Definition bindR {A B : Type} (m : result A) (k : A -> result B) : result B :=
  match m with
  | Ok a => k a
  | Raise e => Raise e
  end.

(** A computation over a mutable state [S] (the resolver caches). *)
Definition ST (S A : Type) : Type := S -> result (A * S).

Definition retS {S A : Type} (a : A) : ST S A := fun s => Ok (a, s).

Definition bindS {S A B : Type} (m : ST S A) (k : A -> ST S B) : ST S B :=
  fun s =>
    match m s with
    | Ok (a, s') => k a s'
    | Raise e => Raise e
    end.

Definition liftS {S A : Type} (m : result A) : ST S A :=
  fun s =>
    match m with
    | Ok a => Ok (a, s)
    | Raise e => Raise e
    end.

Definition raiseS {S A : Type} (e : exn) : ST S A := fun _ => Raise e.

Definition getS {S : Type} : ST S S := fun s => Ok (s, s).

Definition modifyS {S : Type} (f : S -> S) : ST S unit := fun s => Ok (tt, f s).

Declare Scope py_scope.
Delimit Scope py_scope with py.

Notation "x <- m ;; k" := (bindR m (fun x => k))
  (at level 100, m at next level, right associativity) : py_scope.
Notation "x <~ m ;; k" := (bindS m (fun x => k))
  (at level 100, m at next level, right associativity) : py_scope.

Local Open Scope py_scope.

(** [for x in l: acc = f(acc, x)], stopping at the first exception. *)
Fixpoint foldR {A B : Type} (f : B -> A -> result B) (l : list A) (acc : B) : result B :=
  match l with
  | [] => Ok acc
  | x :: l' => acc' <- f acc x ;; foldR f l' acc'
  end.

Fixpoint foldS {S A B : Type} (f : B -> A -> ST S B) (l : list A) (acc : B) : ST S B :=
  match l with
  | [] => retS acc
  | x :: l' => acc' <~ f acc x ;; foldS f l' acc'
  end.

(** [[f(x) for x in l]], stopping at the first exception. *)
Fixpoint mapR {A B : Type} (f : A -> result B) (l : list A) : result (list B) :=
  match l with
  | [] => Ok []
  | x :: l' => y <- f x ;; ys <- mapR f l' ;; Ok (y :: ys)
  end.

Fixpoint mapS {S A B : Type} (f : A -> ST S B) (l : list A) : ST S (list B) :=
  match l with
  | [] => retS []
  | x :: l' => y <~ f x ;; ys <~ mapS f l' ;; retS (y :: ys)
  end.

(** ** Strings *)

Module Str.

(** [s.startswith(p)] *)
Definition startswith (s p : string) : bool := String.prefix p s.

(** [p in s] for two strings. *)
Fixpoint contains (p s : string) : bool :=
  String.prefix p s ||
  match s with
  | EmptyString => false
  | String _ s' => contains p s'
  end.

(** [s[n:]] *)
Fixpoint drop (n : nat) (s : string) : string :=
  match n, s with
  | O, _ => s
  | S n', String _ s' => drop n' s'
  | S _, EmptyString => EmptyString
  end.

(** [s.endswith(c)] for a one-character suffix. *)
Fixpoint endswith_char (s : string) (c : ascii) : bool :=
  match s with
  | EmptyString => false
  | String a EmptyString => Ascii.eqb a c
  | String _ s' => endswith_char s' c
  end.

(** [s.split(sep)] for a one-character separator: never empty. *)
Fixpoint split (sep : ascii) (s : string) : list string :=
  match s with
  | EmptyString => [EmptyString]
  | String c s' =>
      if Ascii.eqb c sep then EmptyString :: split sep s'
      else
        match split sep s' with
        | [] => [String c EmptyString]
        | w :: ws => String c w :: ws
        end
  end.

(** [sep.join(l)] *)
Fixpoint join (sep : string) (l : list string) : string :=
  match l with
  | [] => EmptyString
  | [x] => x
  | x :: l' => x +:+ sep +:+ join sep l'
  end.

(** [s.replace(old, new)] for a non-empty [old]: every occurrence, left to
    right, without overlap.  [skip] counts the characters of a matched
    occurrence that are still to be passed over. *)
Fixpoint replace_from (old new : string) (skip : nat) (s : string) : string :=
  match s with
  | EmptyString => EmptyString
  | String c s' =>
      match skip with
      | S k => replace_from old new k s'
      | O =>
          if String.prefix old s
          then new +:+ replace_from old new (String.length old - 1) s'
          else String c (replace_from old new 0 s')
      end
  end.

Definition replace (s old new : string) : string := replace_from old new 0 s.

Definition upper_char (c : ascii) : ascii :=
  let n := nat_of_ascii c in
  if (97 <=? n)%nat && (n <=? 122)%nat then ascii_of_nat (n - 32) else c.

(** [s.upper()] on ASCII letters (it is applied to the five method names). *)
Fixpoint upper (s : string) : string :=
  match s with
  | EmptyString => EmptyString
  | String c s' => String (upper_char c) (upper s')
  end.

(** [str(n)] for an integer. *)
Definition of_Z (n : Z) : string := NilZero.string_of_int (Z.to_int n).

End Str.

(** ** Python dictionaries as insertion-ordered association lists *)

Module Dict.
Section Ops.
Context {A : Type}.

(** [d.get(k)] *)
Fixpoint get (k : string) (d : list (string * A)) : option A :=
  match d with
  | [] => None
  | (k', v) :: d' => if String.eqb k k' then Some v else get k d'
  end.

(** [k in d] *)
Definition mem (k : string) (d : list (string * A)) : bool :=
  match get k d with
  | Some _ => true
  | None => false
  end.

(** [d[k] = v] *)
Fixpoint set (k : string) (v : A) (d : list (string * A)) : list (string * A) :=
  match d with
  | [] => [(k, v)]
  | (k', v') :: d' =>
      if String.eqb k k' then (k', v) :: d' else (k', v') :: set k v d'
  end.

(** [d.update(src)] *)
Definition update (d src : list (string * A)) : list (string * A) :=
  fold_left (fun acc kv => set (fst kv) (snd kv) acc) src d.

(** [for key, value in src.items(): if key != skip: d[key] = value] *)
Definition overlay (skip : string) (src d : list (string * A)) : list (string * A) :=
  fold_left
    (fun acc kv => if String.eqb (fst kv) skip then acc else set (fst kv) (snd kv) acc)
    src d.

Definition keys (d : list (string * A)) : list string := map fst d.
End Ops.
End Dict.

(** ** The Python operations the checker applies to decoded JSON *)

Module Py.

(** [bool(v)] *)
Definition truthy (v : json) : bool :=
  match v with
  | JNull => false
  | JBool b => b
  | JNum n => negb (Z.eqb n 0)
  | JStr s => negb (String.eqb s "")
  | JArr l => match l with [] => false | _ => true end
  | JObj d => match d with [] => false | _ => true end
  end.

(** [isinstance(v, dict)] *)
Definition is_dict (v : json) : bool :=
  match v with
  | JObj _ => true
  | _ => false
  end.

(** [v == s] for a string literal [s]. *)
Definition eq_str (v : json) (s : string) : bool :=
  match v with
  | JStr s' => String.eqb s' s
  | _ => false
  end.

(** [v.get(k, default)]: only a dict has the method. *)
Definition get (v : json) (k : string) (default : json) : result json :=
  match v with
  | JObj d => Ok (match Dict.get k d with Some x => x | None => default end)
  | _ => Raise AttributeError
  end.

(** [v[k]] for a string [k]. *)
Definition getitem (v : json) (k : string) : result json :=
  match v with
  | JObj d => match Dict.get k d with Some x => Ok x | None => Raise KeyError end
  | _ => Raise TypeError
  end.

(** [k in v] for a string [k]: key of a dict, element of a list, substring
    of a string. *)
Definition contains (k : string) (v : json) : result bool :=
  match v with
  | JObj d => Ok (Dict.mem k d)
  | JArr l => Ok (existsb (fun x => eq_str x k) l)
  | JStr s => Ok (Str.contains k s)
  | _ => Raise TypeError
  end.

(** [v.items()] *)
Definition items (v : json) : result dict :=
  match v with
  | JObj d => Ok d
  | _ => Raise AttributeError
  end.

(** [for x in v]: the elements of a list, the keys of a dict.  The
    characters of a non-empty string are not represented. *)
Definition iter (v : json) : result (list json) :=
  match v with
  | JArr l => Ok l
  | JObj d => Ok (map JStr (Dict.keys d))
  | JStr s => if String.eqb s "" then Ok [] else Raise Unmodelled
  | _ => Raise TypeError
  end.

(** [dict(v)] (also what [d.update(v)] accepts): a copy of a dict; an empty
    iterable gives the empty dict; a string has elements of length one,
    not pairs; a non-empty list of pairs is not represented. *)
Definition to_dict (v : json) : result dict :=
  match v with
  | JObj d => Ok d
  | JArr l => match l with [] => Ok [] | _ => Raise Unmodelled end
  | JStr s => if String.eqb s "" then Ok [] else Raise ValueError
  | _ => Raise TypeError
  end.

(** [len(v)] (of a string: its length in bytes). *)
Definition len (v : json) : result nat :=
  match v with
  | JObj d => Ok (length d)
  | JArr l => Ok (length l)
  | JStr s => Ok (String.length s)
  | _ => Raise TypeError
  end.

(** [str(v)]; the [repr] of a container is not represented. *)
Definition str (v : json) : result string :=
  match v with
  | JNull => Ok "None"
  | JBool true => Ok "True"
  | JBool false => Ok "False"
  | JNum n => Ok (Str.of_Z n)
  | JStr s => Ok s
  | _ => Raise Unmodelled
  end.

(** Hashable values: everything but lists and dicts. *)
Definition hashable (v : json) : bool :=
  match v with
  | JArr _ | JObj _ => false
  | _ => true
  end.

(** Equality of two hashable values as a set compares them
    ([True == 1], [False == 0]). *)
Definition eqb (a b : json) : bool :=
  match a, b with
  | JNull, JNull => true
  | JBool x, JBool y => Bool.eqb x y
  | JNum x, JNum y => Z.eqb x y
  | JBool x, JNum y | JNum y, JBool x => Z.eqb y (if x then 1 else 0)
  | JStr x, JStr y => String.eqb x y
  | _, _ => false
  end.

(** The distinct elements of a sequence of insertions into a set, each
    kept as first inserted. *)
Fixpoint dedupe (seen l : list json) : list json :=
  match l with
  | [] => []
  | x :: l' =>
      if existsb (eqb x) seen then dedupe seen l'
      else x :: dedupe (x :: seen) l'
  end.

(** The elements [set(v)] / [s.update(v)] inserts, in order. *)
Definition set_elems (v : json) : result (list json) :=
  l <- iter v ;;
  if forallb hashable l then Ok l else Raise TypeError.

End Py.

(** The iteration order of a set: [set_iter l] lists the set obtained by
    inserting [l] in order, [inter_iter a b] the set
    [set(a) & set(b)] of two key lists. *)
Class PySet : Type := {
  set_iter : list json -> list json;
  set_iter_perm : forall l, Permutation (set_iter l) (Py.dedupe [] l);
  inter_iter : list string -> list string -> list string;
  inter_iter_perm : forall a b,
    Permutation (inter_iter a b)
      (remove_dups (filter (fun k => k ∈ b) a));
}.

(** One instance: sets that iterate in insertion order. *)
#[export] Instance insertion_order : PySet := {|
  set_iter l := Py.dedupe [] l;
  set_iter_perm l := Permutation_refl _;
  inter_iter a b := remove_dups (filter (fun k => k ∈ b) a);
  inter_iter_perm a b := Permutation_refl _;
|}.

(** ** [class OpenAPIResolver] *)

Module OpenAPIResolver.
Section Resolver.
Context `{PySet}.

(** [self._cache]: resolved schemas by reference string. *)
Abbreviation cache := (gmap string json).

(** The object: [self.spec] and [self._cache] ([self.components] is never
    read after the constructor). *)
Record t : Type := mk {
  spec : json;
  _cache : gmap string json;
}.

(** [__init__]: reading [components.schemas] raises on a document whose
    [components] is not a dict. *)
Definition init (spec : json) : result t :=
  components <- Py.get spec "components" (JObj []) ;;
  _schemas <- Py.get components "schemas" (JObj []) ;;
  Ok (mk spec ∅).

(** [parts = ref[2:].split("/")] *)
Definition parts_of (ref : string) : list string := Str.split "/" (Str.drop 2 ref).

(** The loop of [resolve_ref] over the parts of the reference: [None] is the
    early [return {}]. *)
Fixpoint walk (result : json) (parts : list string) : option json :=
  match parts with
  | [] => Some result
  | part :: parts' =>
      match result with
      | JObj d =>
          walk (match Dict.get part d with Some x => x | None => JObj [] end) parts'
      | _ => None
      end
  end.

(** The filter of [resolve_schema] on the options of [oneOf]/[anyOf]. *)
Definition is_null_option (opt : json) : bool :=
  match opt with
  | JObj d => match Dict.get "type" d with Some t => Py.eq_str t "null" | None => false end
  | _ => false
  end.

(** [options = schema.get("oneOf") or schema.get("anyOf", [])] *)
Definition options_of (schema : dict) : json :=
  let one := match Dict.get "oneOf" schema with Some x => x | None => JNull end in
  if Py.truthy one then one
  else match Dict.get "anyOf" schema with Some x => x | None => JArr [] end.

(** [target.setdefault("properties", {})], and the lookup of its [update]
    method, which only a dict has. *)
Definition properties_of (target : dict) : result dict :=
  match Dict.get "properties" target with
  | Some (JObj tp) => Ok tp
  | Some _ => Raise AttributeError
  | None => Ok []
  end.

(** [existing = set(target.get("required", []))] *)
Definition required_of (target : dict) : result (list json) :=
  Py.set_elems (match Dict.get "required" target with Some x => x | None => JArr [] end).

(** [for key in ["type", "description"]: if key in source: target[key] = source[key]] *)
Definition copy_fields (source : json) (target : dict) : result dict :=
  foldR
    (fun target key =>
       present <- Py.contains key source ;;
       if present then v <- Py.getitem source key ;; Ok (Dict.set key v target)
       else Ok target)
    ["type"; "description"] target.

Fixpoint resolve_schema (fuel : nat) (doc : json) (schema : json) {struct fuel}
  : ST cache json :=
  match fuel with
  | O => raiseS RecursionError
  | S n =>
      match schema with
      | JObj d =>
          if Dict.mem "$ref" d then
            resolved <~ resolve_ref n doc
              (match Dict.get "$ref" d with Some r => r | None => JNull end) ;;
            result <~ liftS (Py.to_dict resolved) ;;
            retS (JObj (Dict.overlay "$ref" d result))
          else if Dict.mem "allOf" d then
            subs <~ liftS (Py.iter
              (match Dict.get "allOf" d with Some x => x | None => JNull end)) ;;
            merged <~ foldS
              (fun merged sub_schema =>
                 resolved <~ resolve_schema n doc sub_schema ;;
                 _merge_schemas n doc merged resolved)
              subs
              [("type", JStr "object"); ("properties", JObj []); ("required", JArr [])] ;;
            retS (JObj (Dict.overlay "allOf" d merged))
          else if Dict.mem "oneOf" d || Dict.mem "anyOf" d then
            options <~ liftS (Py.iter (options_of d)) ;;
            match List.filter (fun opt => negb (is_null_option opt)) options with
            | opt :: _ =>
                resolved <~ resolve_schema n doc opt ;;
                result <~ liftS (Py.to_dict resolved) ;;
                retS (JObj (Dict.set "_nullable" (JBool true) result))
            | [] => retS (JObj [("type", JStr "null"); ("_nullable", JBool true)])
            end
          else
            result <~
              match Dict.get "properties" d with
              | Some props =>
                  items <~ liftS (Py.items props) ;;
                  resolved <~ mapS
                    (fun kv => v <~ resolve_schema n doc (snd kv) ;; retS (fst kv, v))
                    items ;;
                  retS (Dict.set "properties" (JObj resolved) d)
              | None => retS d
              end ;;
            result <~
              match Dict.get "items" result with
              | Some items =>
                  v <~ resolve_schema n doc items ;;
                  retS (Dict.set "items" v result)
              | None => retS result
              end ;;
            result <~
              match Dict.get "additionalProperties" result with
              | Some (JObj ap) =>
                  v <~ resolve_schema n doc (JObj ap) ;;
                  retS (Dict.set "additionalProperties" v result)
              | _ => retS result
              end ;;
            retS (JObj result)
      | _ => retS schema
      end
  end

with resolve_ref (fuel : nat) (doc : json) (ref : json) {struct fuel}
  : ST cache json :=
  match fuel with
  | O => raiseS RecursionError
  | S n =>
      match ref with
      | JStr r =>
          c <~ getS ;;
          match c !! r with
          | Some cached => retS cached
          | None =>
              if negb (Str.startswith r "#/") then retS (JObj [])
              else
                match walk doc (parts_of r) with
                | None => retS (JObj [])
                | Some result =>
                    resolved <~ resolve_schema n doc result ;;
                    _ <~ modifyS (insert r resolved) ;;
                    retS resolved
                end
          end
      | JArr _ | JObj _ => raiseS TypeError
      | _ => raiseS AttributeError
      end
  end

with _merge_schemas (fuel : nat) (doc : json) (target : dict) (source : json)
  {struct fuel} : ST cache dict :=
  match fuel with
  | O => raiseS RecursionError
  | S n =>
      has_props <~ liftS (Py.contains "properties" source) ;;
      target <~
        (if has_props then
           tp <~ liftS (properties_of target) ;;
           props <~ liftS (Py.getitem source "properties") ;;
           resolved <~ resolve_schema n doc (JObj [("properties", props)]) ;;
           resolved_props <~ liftS (Py.get resolved "properties" (JObj [])) ;;
           src <~ liftS (Py.to_dict resolved_props) ;;
           retS (Dict.set "properties" (JObj (Dict.update tp src)) target)
         else retS target) ;;
      has_required <~ liftS (Py.contains "required" source) ;;
      target <~
        (if has_required then
           existing <~ liftS (required_of target) ;;
           required <~ liftS (Py.getitem source "required") ;;
           added <~ liftS (Py.set_elems required) ;;
           retS (Dict.set "required" (JArr (set_iter (existing ++ added))) target)
         else retS target) ;;
      liftS (copy_fields source target)
  end.

End Resolver.
End OpenAPIResolver.

(** The method view: [self.resolve_schema(schema)] on a resolver object. *)
Definition resolve_schema_of `{PySet} (fuel : nat) (schema : json)
  : ST OpenAPIResolver.t json :=
  fun r =>
    match OpenAPIResolver.resolve_schema fuel (OpenAPIResolver.spec r) schema
            (OpenAPIResolver._cache r) with
    | Ok (v, c) => Ok (v, OpenAPIResolver.mk (OpenAPIResolver.spec r) c)
    | Raise e => Raise e
    end.

(** ** Policy tables and report model *)

(** (openai_path, method, location, field) -> reason *)
Definition DOCUMENTED_MISSING_FIELDS : gmap (string * string * string * string) string :=
  list_to_map [
    (("/chat/completions", "POST", "request", "safety_identifier"), "OpenAI internal safety feature");
    (("/chat/completions", "POST", "request", "prompt_cache_key"), "OpenAI-specific prompt caching key");
    (("/chat/completions", "POST", "request", "service_tier"), "OpenAI service tier selection (auto/default)");
    (("/chat/completions", "POST", "request", "prompt_cache_retention"), "OpenAI-specific cache retention");
    (("/chat/completions", "POST", "request", "modalities"), "OpenAI multimodal output selection");
    (("/chat/completions", "POST", "request", "verbosity"), "OpenAI-specific verbosity control");
    (("/chat/completions", "POST", "request", "reasoning_effort"), "OpenAI o1/o3 reasoning - Hadrian uses 'reasoning' object instead");
    (("/chat/completions", "POST", "request", "web_search_options"), "OpenAI web search - Hadrian has separate web_search feature");
    (("/chat/completions", "POST", "request", "audio"), "OpenAI audio output in chat");
    (("/chat/completions", "POST", "request", "store"), "OpenAI stored completions feature");
    (("/chat/completions", "POST", "request", "n"), "Multiple completions - not supported for cost/complexity reasons");
    (("/chat/completions", "POST", "request", "prediction"), "OpenAI predicted outputs feature");
    (("/chat/completions", "POST", "request", "parallel_tool_calls"), "OpenAI parallel tool execution hint");
    (("/chat/completions", "POST", "request", "function_call"), "Deprecated - use tool_choice instead");
    (("/chat/completions", "POST", "request", "functions"), "Deprecated - use tools instead");
    (("/chat/completions", "POST", "request", "include_obfuscation"), "OpenAI internal obfuscation feature");
    (("/completions", "POST", "request", "include_usage"), "Legacy completions - use chat/completions instead");
    (("/completions", "POST", "request", "include_obfuscation"), "OpenAI internal obfuscation feature");
    (("/images/edits", "POST", "response", "output_tokens_details"), "Detailed token breakdown not tracked");
    (("/images/generations", "POST", "response", "output_tokens_details"), "Detailed token breakdown not tracked");
    (("/images/variations", "POST", "response", "output_tokens_details"), "Detailed token breakdown not tracked");
    (("/models", "GET", "response", "object"), "List response object type - TODO: add to schema");
    (("/responses", "POST", "request", "top_logprobs"), "Log probabilities not implemented");
    (("/responses", "POST", "request", "prompt_cache_retention"), "OpenAI-specific cache retention");
    (("/responses", "POST", "request", "max_tool_calls"), "Tool call limits not implemented");
    (("/responses", "POST", "request", "stream_options"), "Stream options not implemented");
    (("/responses", "POST", "request", "conversation"), "OpenAI conversation context feature");
    (("/responses", "POST", "request", "format"), "OpenAI-specific format parameter");
    (("/responses", "POST", "request", "verbosity"), "OpenAI-specific verbosity control");
    (("/responses", "POST", "request", "effort"), "OpenAI-specific effort parameter");
    (("/responses", "POST", "request", "summary"), "OpenAI-specific summary parameter");
    (("/responses", "POST", "request", "generate_summary"), "OpenAI-specific summary generation");
    (("/responses", "POST", "request", "id"), "OpenAI-specific ID parameter");
    (("/responses", "POST", "request", "version"), "OpenAI-specific version parameter");
    (("/responses", "POST", "request", "variables"), "OpenAI-specific variables parameter");
    (("/responses", "POST", "request", "context_management"), "OpenAI-specific context management");
    (("/vector_stores/{vector_store_id}/files", "POST", "request", "attributes"), "File attributes not implemented");
    (("/vector_stores/{vector_store_id}/files", "POST", "response", "static"), "Static file info not implemented");
    (("/vector_stores/{vector_store_id}/files/{file_id}", "GET", "response", "static"), "Static file info not implemented");
    (("/vector_stores/{vector_store_id}/search", "POST", "request", "rewrite_query"), "Query rewriting not implemented");
    (("/vector_stores/{vector_store_id}/search", "POST", "response", "search_query"), "Rewritten query not returned");
    (("/vector_stores/{vector_store_id}/search", "POST", "response", "has_more"), "Pagination not implemented for search");
    (("/vector_stores/{vector_store_id}/search", "POST", "response", "next_page"), "Pagination not implemented for search")
  ].

(** [key in DOCUMENTED_MISSING_FIELDS] *)
Definition documented (key : string * string * string * string) : bool :=
  bool_decide (is_Some (DOCUMENTED_MISSING_FIELDS !! key)).

Definition EXTENSION_MARKER : string := "**Hadrian Extension:**".

Inductive DiffType : Type :=
| MISSING_IN_HADRIAN
| HADRIAN_EXTENSION
| TYPE_MISMATCH
| REQUIRED_MISMATCH.

Module SchemaDiff.
Record t : Type := mk {
  path : string;
  field : string;
  diff_type : DiffType;
  openai_value : json;
  hadrian_value : json;
  description : string;
}.
End SchemaDiff.

Module EndpointDiff.
Record t : Type := mk {
  path : string;
  method : string;
  request_diffs : list SchemaDiff.t;
  response_diffs : list SchemaDiff.t;
  param_diffs : list SchemaDiff.t;
  missing_in_hadrian : bool;
  hadrian_extension : bool;
}.
End EndpointDiff.

Module Violation.
Record t : Type := mk {
  violation_type : string;
  path : string;
  method : string;
  field : string;
  location : string;
  message : string;
}.
End Violation.

Module ConformanceReport.
Record t : Type := mk {
  openai_version : json;
  hadrian_version : json;
  total_openai_endpoints : nat;
  total_hadrian_endpoints : nat;
  endpoints_checked : nat;
  fully_conformant : nat;
  endpoints_with_diffs : list EndpointDiff.t;
  out_of_scope_endpoints : list string;
  hadrian_only_endpoints : list string;
  violations : list Violation.t;
}.
End ConformanceReport.

(** ** [class ConformanceChecker] *)

Module ConformanceChecker.

(** OpenAI path -> Hadrian path mapping *)
Definition PATH_MAPPING : list (string * string) := [
  ("/chat/completions", "/api/v1/chat/completions");
  ("/completions", "/api/v1/completions");
  ("/embeddings", "/api/v1/embeddings");
  ("/models", "/api/v1/models");
  ("/models/{model}", "/api/v1/models/{model}");
  ("/files", "/api/v1/files");
  ("/files/{file_id}", "/api/v1/files/{file_id}");
  ("/files/{file_id}/content", "/api/v1/files/{file_id}/content");
  ("/audio/speech", "/api/v1/audio/speech");
  ("/audio/transcriptions", "/api/v1/audio/transcriptions");
  ("/audio/translations", "/api/v1/audio/translations");
  ("/images/generations", "/api/v1/images/generations");
  ("/images/edits", "/api/v1/images/edits");
  ("/images/variations", "/api/v1/images/variations");
  ("/moderations", "/api/v1/moderations");
  ("/vector_stores", "/api/v1/vector_stores");
  ("/vector_stores/{vector_store_id}", "/api/v1/vector_stores/{vector_store_id}");
  ("/vector_stores/{vector_store_id}/files", "/api/v1/vector_stores/{vector_store_id}/files");
  ("/vector_stores/{vector_store_id}/files/{file_id}", "/api/v1/vector_stores/{vector_store_id}/files/{file_id}");
  ("/vector_stores/{vector_store_id}/search", "/api/v1/vector_stores/{vector_store_id}/search");
  ("/responses", "/api/v1/responses")
].

(** Endpoints out of scope for Hadrian *)
Definition OUT_OF_SCOPE_PREFIXES : list string := [
  "/assistants"; "/threads"; "/fine_tuning"; "/batches"; "/organization";
  "/realtime"; "/evals"; "/uploads"; "/audit"; "/invites"; "/users";
  "/projects"; "/containers"; "/conversations"; "/videos"; "/chatkit";
  "/audio/voice_consents"; "/audio/voices"; "/skills"
].

Definition OUT_OF_SCOPE_PATHS : list string := [
  "/chat/completions/{completion_id}";
  "/chat/completions/{completion_id}/messages";
  "/models/{model}";
  "/models/{model}/permissions";
  "/moderations";
  "/vector_stores/{vector_store_id}/file_batches";
  "/vector_stores/{vector_store_id}/file_batches/{batch_id}";
  "/vector_stores/{vector_store_id}/file_batches/{batch_id}/cancel";
  "/vector_stores/{vector_store_id}/file_batches/{batch_id}/files";
  "/vector_stores/{vector_store_id}/files/{file_id}/content";
  "/responses/input_tokens";
  "/responses/compact";
  "/responses/{response_id}";
  "/responses/{response_id}/input_items";
  "/responses/{response_id}/cancel"
].

(** Methods to exclude for specific paths *)
Definition OUT_OF_SCOPE_METHODS : list (string * list string) := [
  ("/chat/completions", ["get"]);
  ("/vector_stores/{vector_store_id}/files/{file_id}", ["post"])
].

(** [for method in ["get", "post", "put", "patch", "delete"]] *)
Definition METHODS : list string := ["get"; "post"; "put"; "patch"; "delete"].

(** [x in l] for a list of strings. *)
Definition str_in (x : string) (l : list string) : bool :=
  existsb (String.eqb x) l.

Definition is_path_parameter (pattern_part : string) : bool :=
  Str.startswith pattern_part "{" && Str.endswith_char pattern_part "}".

(** The loop of [_path_matches_pattern] over [zip(path_parts, pattern_parts)]. *)
Fixpoint parts_match (path_parts pattern_parts : list string) : bool :=
  match path_parts, pattern_parts with
  | path_part :: ps, pattern_part :: qs =>
      if is_path_parameter pattern_part then parts_match ps qs
      else if negb (String.eqb path_part pattern_part) then false
      else parts_match ps qs
  | _, _ => true
  end.

Definition _path_matches_pattern (path pattern : string) : bool :=
  let path_parts := Str.split "/" path in
  let pattern_parts := Str.split "/" pattern in
  if negb (Nat.eqb (length path_parts) (length pattern_parts)) then false
  else parts_match path_parts pattern_parts.

Definition _is_out_of_scope (path : string) : bool :=
  if str_in path OUT_OF_SCOPE_PATHS then true
  else if existsb (fun p => _path_matches_pattern path p) OUT_OF_SCOPE_PATHS then true
  else if existsb (fun prefix => Str.startswith path prefix) OUT_OF_SCOPE_PREFIXES then true
  else false.

Definition _is_method_out_of_scope (path method : string) : bool :=
  match Dict.get path OUT_OF_SCOPE_METHODS with
  | Some methods => str_in method methods
  | None =>
      existsb
        (fun pm => _path_matches_pattern path (fst pm) && str_in method (snd pm))
        OUT_OF_SCOPE_METHODS
  end.

(** [_types_compatible] *)
Definition _types_compatible (openai_type hadrian_type : string) : bool :=
  if String.eqb openai_type hadrian_type then true
  else if str_in openai_type ["integer"; "number"]
          && str_in hadrian_type ["integer"; "number"] then true
  else if String.eqb openai_type "number" && String.eqb hadrian_type "double" then true
  else if String.eqb hadrian_type "number" && String.eqb openai_type "double" then true
  else false.

(** ["|".join(types)]: every element has to be a string. *)
Definition join_types (types : list json) : result string :=
  parts <- mapR (fun t => match t with JStr s => Ok s | _ => Raise TypeError end) types ;;
  Ok (Str.join "|" parts).

(** The OpenAPI 3.1 list form of [type]: [["string", "null"]]. *)
Definition normalize_type (schema_type : json) : result json :=
  match schema_type with
  | JArr l =>
      let types := List.filter (fun t => negb (Py.eq_str t "null")) l in
      match types with
      | [t] => Ok t
      | _ => s <- join_types types ;; Ok (JStr s)
      end
  | _ => Ok schema_type
  end.

(** [ref.split("/")[-1]] *)
Definition ref_name (ref : json) : result string :=
  match ref with
  | JStr r => Ok (List.last (Str.split "/" r) "")
  | _ => Raise AttributeError
  end.

Fixpoint _get_type_string (fuel : nat) (schema : json) : result string :=
  match fuel with
  | O => Raise RecursionError
  | S n =>
      match schema with
      | JObj d =>
          schema_type <- normalize_type
            (match Dict.get "type" d with Some t => t | None => JNull end) ;;
          if Py.eq_str schema_type "array" then
            item_type <- _get_type_string n
              (match Dict.get "items" d with Some i => i | None => JObj [] end) ;;
            Ok ("array<" +:+ item_type +:+ ">")
          else if Py.eq_str schema_type "object" then
            match Dict.get "additionalProperties" d with
            | Some ap =>
                value_type <- _get_type_string n ap ;;
                Ok ("map<string, " +:+ value_type +:+ ">")
            | None => Ok "object"
            end
          else if Py.truthy schema_type then Py.str schema_type
          else if Dict.mem "enum" d then Ok "enum"
          else
            match Dict.get "$ref" d with
            | Some ref => ref_name ref
            | None => Ok "unknown"
            end
      | _ => Py.str schema
      end
  end.

(** [field_name in required] for a set of hashable values. *)
Definition in_required (field_name : string) (required : list json) : bool :=
  existsb (fun x => Py.eq_str x field_name) required.

Definition missing_field_diff (context field_name field_type : string) (is_required : bool)
  : SchemaDiff.t :=
  SchemaDiff.mk context field_name MISSING_IN_HADRIAN (JStr field_type) JNull
    ("Field '" +:+ field_name +:+ "' (" +:+ field_type +:+ ") missing in Hadrian"
       +:+ (if is_required then " [REQUIRED]" else "")).

Definition undocumented_missing_field (endpoint_path method location field_name : string)
  : Violation.t :=
  Violation.mk "undocumented_missing" endpoint_path method field_name location
    ("Field '" +:+ field_name
       +:+ "' is missing but not documented in DOCUMENTED_MISSING_FIELDS").

Definition extension_field_diff (context field_name field_type : string) : SchemaDiff.t :=
  SchemaDiff.mk context field_name HADRIAN_EXTENSION JNull (JStr field_type)
    ("Field '" +:+ field_name +:+ "' (" +:+ field_type +:+ ") is a Hadrian extension").

Definition unmarked_extension_field (endpoint_path method location field_name : string)
  : Violation.t :=
  Violation.mk "unmarked_extension" endpoint_path method field_name location
    ("Field '" +:+ field_name +:+ "' is a Hadrian extension but missing '"
       +:+ EXTENSION_MARKER +:+ "' in description").

Definition type_mismatch_diff (context field_name openai_type hadrian_type : string)
  : SchemaDiff.t :=
  SchemaDiff.mk context field_name TYPE_MISMATCH (JStr openai_type) (JStr hadrian_type)
    ("Type mismatch for '" +:+ field_name +:+ "': OpenAI=" +:+ openai_type
       +:+ ", Hadrian=" +:+ hadrian_type).

Definition required_mismatch_diff (context field_name : string) : SchemaDiff.t :=
  SchemaDiff.mk context field_name REQUIRED_MISMATCH (JStr "required") (JStr "optional")
    ("Field '" +:+ field_name +:+ "' is required in OpenAI but optional in Hadrian").

(** What [_compare_schemas] accumulates: [diffs] and [violations]. *)
Abbreviation findings := (list SchemaDiff.t * list Violation.t)%type.

Module R := ConformanceReport.

Section Differ.
Context `{PySet}.

Fixpoint _compare_schemas (fuel : nat) (openai_schema hadrian_schema : json)
  (context endpoint_path method location : string) : result findings :=
  match fuel with
  | O => Raise RecursionError
  | S n =>
      openai_props <- Py.get openai_schema "properties" (JObj []) ;;
      hadrian_props <- Py.get hadrian_schema "properties" (JObj []) ;;
      openai_req_raw <- Py.get openai_schema "required" (JArr []) ;;
      openai_required <- Py.set_elems openai_req_raw ;;
      hadrian_req_raw <- Py.get hadrian_schema "required" (JArr []) ;;
      hadrian_required <- Py.set_elems hadrian_req_raw ;;
      (* Fields in OpenAI but not Hadrian *)
      openai_items <- Py.items openai_props ;;
      acc <- foldR
        (fun (acc : findings) kv =>
           let field_name := fst kv in
           let openai_field := snd kv in
           present <- Py.contains field_name hadrian_props ;;
           if present then Ok acc
           else
             field_type <- _get_type_string n openai_field ;;
             let is_required := in_required field_name openai_required in
             let diffs := fst acc ++ [missing_field_diff context field_name field_type is_required] in
             if documented (endpoint_path, method, location, field_name)
             then Ok (diffs, snd acc)
             else Ok (diffs,
                      snd acc ++ [undocumented_missing_field endpoint_path method location field_name]))
        openai_items ([], []) ;;
      (* Fields in Hadrian but not OpenAI *)
      hadrian_items <- Py.items hadrian_props ;;
      acc <- foldR
        (fun (acc : findings) kv =>
           let field_name := fst kv in
           let hadrian_field := snd kv in
           if Dict.mem field_name openai_items then Ok acc
           else
             field_type <- _get_type_string n hadrian_field ;;
             let diffs := fst acc ++ [extension_field_diff context field_name field_type] in
             description <- Py.get hadrian_field "description" (JStr "") ;;
             marked <- Py.contains EXTENSION_MARKER description ;;
             if marked then Ok (diffs, snd acc)
             else Ok (diffs,
                      snd acc ++ [unmarked_extension_field endpoint_path method location field_name]))
        hadrian_items acc ;;
      (* Compare common fields *)
      foldR
        (fun (acc : findings) field_name =>
           openai_field <- Py.getitem openai_props field_name ;;
           hadrian_field <- Py.getitem hadrian_props field_name ;;
           openai_type <- _get_type_string n openai_field ;;
           hadrian_type <- _get_type_string n hadrian_field ;;
           let diffs :=
             if _types_compatible openai_type hadrian_type then fst acc
             else fst acc ++ [type_mismatch_diff context field_name openai_type hadrian_type] in
           let openai_req := in_required field_name openai_required in
           let hadrian_req := in_required field_name hadrian_required in
           let diffs :=
             if openai_req && negb hadrian_req
             then diffs ++ [required_mismatch_diff context field_name]
             else diffs in
           openai_field_type <- Py.get openai_field "type" JNull ;;
           if Py.eq_str openai_field_type "object" then
             hadrian_field_type <- Py.get hadrian_field "type" JNull ;;
             if Py.eq_str hadrian_field_type "object" then
               nested <- _compare_schemas n openai_field hadrian_field
                 (context +:+ "." +:+ field_name) endpoint_path method location ;;
               Ok (diffs ++ fst nested, snd acc ++ snd nested)
             else Ok (diffs, snd acc)
           else Ok (diffs, snd acc))
        (inter_iter (Dict.keys openai_items) (Dict.keys hadrian_items)) acc
  end.

(** The object: the two documents and one resolver for each. *)
Record t : Type := mk {
  openai_spec : json;
  hadrian_spec : json;
  verbose : bool;
  openai_resolver : OpenAPIResolver.t;
  hadrian_resolver : OpenAPIResolver.t;
}.

(** [__init__] *)
Definition init (openai_spec hadrian_spec : json) (verbose : bool) : result t :=
  openai_resolver <- OpenAPIResolver.init openai_spec ;;
  hadrian_resolver <- OpenAPIResolver.init hadrian_spec ;;
  Ok (mk openai_spec hadrian_spec verbose openai_resolver hadrian_resolver).

(** [self.openai_resolver.resolve_schema(schema)] *)
Definition openai_resolve (fuel : nat) (schema : json) : ST t json :=
  fun self =>
    match resolve_schema_of fuel schema (openai_resolver self) with
    | Ok (v, r) =>
        Ok (v, mk (openai_spec self) (hadrian_spec self) (verbose self) r
                  (hadrian_resolver self))
    | Raise e => Raise e
    end.

(** [self.hadrian_resolver.resolve_schema(schema)] *)
Definition hadrian_resolve (fuel : nat) (schema : json) : ST t json :=
  fun self =>
    match resolve_schema_of fuel schema (hadrian_resolver self) with
    | Ok (v, r) =>
        Ok (v, mk (openai_spec self) (hadrian_spec self) (verbose self)
                  (openai_resolver self) r)
    | Raise e => Raise e
    end.

(** [v.get(k1, {}).get(k2, {})...] *)
Definition get_chain (v : json) (keys : list string) : result json :=
  foldR (fun v k => Py.get v k (JObj [])) keys v.

(** [op.get("requestBody", {}).get("content", {}).get("application/json", {}).get("schema", {})] *)
Definition request_body_schema (op : json) : result json :=
  get_chain op ["requestBody"; "content"; "application/json"; "schema"].

(** [op.get("responses", {}).get("200", {}).get("content", {}).get("application/json", {}).get("schema", {})] *)
Definition response_body_schema (op : json) : result json :=
  get_chain op ["responses"; "200"; "content"; "application/json"; "schema"].

(** The request or response part of [_compare_endpoint]: both schemas have to
    be truthy for the comparison to happen. *)
Definition compare_body (fuel : nat) (path method_upper location : string)
  (openai_body hadrian_body : json) : ST t findings :=
  if Py.truthy openai_body && Py.truthy hadrian_body then
    resolved_openai <~ openai_resolve fuel openai_body ;;
    resolved_hadrian <~ hadrian_resolve fuel hadrian_body ;;
    liftS (_compare_schemas fuel resolved_openai resolved_hadrian
             (path +:+ " " +:+ location) path method_upper location)
  else retS ([], []).

(** [{p.get("name"): p for p in op.get("parameters", []) if p.get("in") == "query"}];
    a name that is not a string is not represented as a key. *)
Definition query_params (op : json) : result dict :=
  parameters <- Py.get op "parameters" (JArr []) ;;
  ps <- Py.iter parameters ;;
  foldR
    (fun (acc : dict) p =>
       loc <- Py.get p "in" JNull ;;
       if Py.eq_str loc "query" then
         name <- Py.get p "name" JNull ;;
         match name with
         | JStr s => Ok (Dict.set s p acc)
         | JArr _ | JObj _ => Raise TypeError
         | _ => Raise Unmodelled
         end
       else Ok acc)
    ps [].

(** [param.get("schema", {}).get("type")] *)
Definition param_type (param : json) : result json :=
  schema <- Py.get param "schema" (JObj []) ;;
  Py.get schema "type" JNull.

Definition missing_param_diff (path param_name : string) (openai_value : json)
  : SchemaDiff.t :=
  SchemaDiff.mk (path +:+ " params") param_name MISSING_IN_HADRIAN openai_value JNull
    ("Query parameter '" +:+ param_name +:+ "' missing in Hadrian").

Definition undocumented_missing_param (path method param_name : string) : Violation.t :=
  Violation.mk "undocumented_missing" path method param_name "param"
    ("Query parameter '" +:+ param_name
       +:+ "' is missing but not documented in DOCUMENTED_MISSING_FIELDS").

Definition extension_param_diff (path param_name : string) (hadrian_value : json)
  : SchemaDiff.t :=
  SchemaDiff.mk (path +:+ " params") param_name HADRIAN_EXTENSION JNull hadrian_value
    ("Query parameter '" +:+ param_name +:+ "' is a Hadrian extension").

Definition unmarked_extension_param (path method param_name : string) : Violation.t :=
  Violation.mk "unmarked_extension" path method param_name "param"
    ("Query parameter '" +:+ param_name +:+ "' is a Hadrian extension but missing '"
       +:+ EXTENSION_MARKER +:+ "' in description").

(** The query parameter part of [_compare_endpoint]. *)
Definition compare_params (path method_upper : string) (openai_op hadrian_op : json)
  : result findings :=
  openai_params <- query_params openai_op ;;
  hadrian_params <- query_params hadrian_op ;;
  acc <- foldR
    (fun (acc : findings) kv =>
       let param_name := fst kv in
       let openai_param := snd kv in
       if Dict.mem param_name hadrian_params then Ok acc
       else
         openai_value <- param_type openai_param ;;
         let diffs := fst acc ++ [missing_param_diff path param_name openai_value] in
         if documented (path, method_upper, "param", param_name)
         then Ok (diffs, snd acc)
         else Ok (diffs, snd acc ++ [undocumented_missing_param path method_upper param_name]))
    openai_params ([], []) ;;
  foldR
    (fun (acc : findings) kv =>
       let param_name := fst kv in
       let hadrian_param := snd kv in
       if Dict.mem param_name openai_params then Ok acc
       else
         hadrian_value <- param_type hadrian_param ;;
         let diffs := fst acc ++ [extension_param_diff path param_name hadrian_value] in
         description <- Py.get hadrian_param "description" (JStr "") ;;
         marked <- Py.contains EXTENSION_MARKER description ;;
         if marked then Ok (diffs, snd acc)
         else Ok (diffs, snd acc ++ [unmarked_extension_param path method_upper param_name]))
    hadrian_params acc.

Definition _compare_endpoint (fuel : nat) (path method : string)
  (openai_op hadrian_op : json) : ST t (EndpointDiff.t * list Violation.t) :=
  let method_upper := Str.upper method in
  (* Compare request body *)
  openai_body <~ liftS (request_body_schema openai_op) ;;
  hadrian_body <~ liftS (request_body_schema hadrian_op) ;;
  req <~ compare_body fuel path method_upper "request" openai_body hadrian_body ;;
  (* Compare response body (200 response) *)
  openai_resp <~ liftS (response_body_schema openai_op) ;;
  hadrian_resp <~ liftS (response_body_schema hadrian_op) ;;
  resp <~ compare_body fuel path method_upper "response" openai_resp hadrian_resp ;;
  (* Compare query parameters *)
  params <~ liftS (compare_params path method_upper openai_op hadrian_op) ;;
  retS (EndpointDiff.mk path method_upper (fst req) (fst resp) (fst params) false false,
        snd req ++ snd resp ++ snd params).

(** [report.out_of_scope_endpoints.append(openai_path)] *)
Definition add_out_of_scope (openai_path : string) (r : ConformanceReport.t)
  : ConformanceReport.t :=
  ConformanceReport.mk (R.openai_version r) (R.hadrian_version r)
    (R.total_openai_endpoints r) (R.total_hadrian_endpoints r)
    (R.endpoints_checked r) (R.fully_conformant r) (R.endpoints_with_diffs r)
    (R.out_of_scope_endpoints r ++ [openai_path]) (R.hadrian_only_endpoints r)
    (R.violations r).

(** [report.endpoints_checked += 1] *)
Definition count_checked (r : ConformanceReport.t) : ConformanceReport.t :=
  ConformanceReport.mk (R.openai_version r) (R.hadrian_version r)
    (R.total_openai_endpoints r) (R.total_hadrian_endpoints r)
    (R.endpoints_checked r + 1) (R.fully_conformant r) (R.endpoints_with_diffs r)
    (R.out_of_scope_endpoints r) (R.hadrian_only_endpoints r) (R.violations r).

(** [report.fully_conformant += 1] *)
Definition count_conformant (r : ConformanceReport.t) : ConformanceReport.t :=
  ConformanceReport.mk (R.openai_version r) (R.hadrian_version r)
    (R.total_openai_endpoints r) (R.total_hadrian_endpoints r)
    (R.endpoints_checked r) (R.fully_conformant r + 1) (R.endpoints_with_diffs r)
    (R.out_of_scope_endpoints r) (R.hadrian_only_endpoints r) (R.violations r).

(** [report.endpoints_with_diffs.append(diff)] *)
Definition add_endpoint_diff (diff : EndpointDiff.t) (r : ConformanceReport.t)
  : ConformanceReport.t :=
  ConformanceReport.mk (R.openai_version r) (R.hadrian_version r)
    (R.total_openai_endpoints r) (R.total_hadrian_endpoints r)
    (R.endpoints_checked r) (R.fully_conformant r) (R.endpoints_with_diffs r ++ [diff])
    (R.out_of_scope_endpoints r) (R.hadrian_only_endpoints r) (R.violations r).

(** [report.violations.extend(vs)] *)
Definition add_violations (vs : list Violation.t) (r : ConformanceReport.t)
  : ConformanceReport.t :=
  ConformanceReport.mk (R.openai_version r) (R.hadrian_version r)
    (R.total_openai_endpoints r) (R.total_hadrian_endpoints r)
    (R.endpoints_checked r) (R.fully_conformant r) (R.endpoints_with_diffs r)
    (R.out_of_scope_endpoints r) (R.hadrian_only_endpoints r) (R.violations r ++ vs).

(** [report.hadrian_only_endpoints.append(hadrian_path)] *)
Definition add_hadrian_only (hadrian_path : string) (r : ConformanceReport.t)
  : ConformanceReport.t :=
  ConformanceReport.mk (R.openai_version r) (R.hadrian_version r)
    (R.total_openai_endpoints r) (R.total_hadrian_endpoints r)
    (R.endpoints_checked r) (R.fully_conformant r) (R.endpoints_with_diffs r)
    (R.out_of_scope_endpoints r) (R.hadrian_only_endpoints r ++ [hadrian_path])
    (R.violations r).

Definition missing_endpoint_diff (openai_path method : string) : EndpointDiff.t :=
  EndpointDiff.mk openai_path (Str.upper method) [] [] [] true false.

Definition missing_endpoint (openai_path method : string) : Violation.t :=
  Violation.mk "missing_endpoint" openai_path (Str.upper method) "" ""
    ("Endpoint " +:+ Str.upper method +:+ " " +:+ openai_path
       +:+ " is not implemented in Hadrian").

(** [self.PATH_MAPPING.get(openai_path)], or the [/api/v1] prefix when that
    is falsy. *)
Definition hadrian_path_of (openai_path : string) : string :=
  match Dict.get openai_path PATH_MAPPING with
  | Some hadrian_path =>
      if negb (String.eqb hadrian_path "") then hadrian_path
      else "/api/v1" +:+ openai_path
  | None => "/api/v1" +:+ openai_path
  end.

(** [endpoint_filter and endpoint_filter not in openai_path] *)
Definition filtered_out (endpoint_filter : option string) (openai_path : string) : bool :=
  match endpoint_filter with
  | Some f => negb (String.eqb f "") && negb (Str.contains f openai_path)
  | None => false
  end.

(** One turn of the loop over the five methods. *)
Definition check_method (fuel : nat) (openai_path : string)
  (openai_methods hadrian_methods : json) (report : ConformanceReport.t)
  (method : string) : ST t ConformanceReport.t :=
  in_openai <~ liftS (Py.contains method openai_methods) ;;
  if negb in_openai then retS report
  else if _is_method_out_of_scope openai_path method then retS report
  else
    let report := count_checked report in
    in_hadrian <~ liftS (Py.contains method hadrian_methods) ;;
    if negb in_hadrian then
      retS (add_violations [missing_endpoint openai_path method]
              (add_endpoint_diff (missing_endpoint_diff openai_path method) report))
    else
      openai_op <~ liftS (Py.getitem openai_methods method) ;;
      hadrian_op <~ liftS (Py.getitem hadrian_methods method) ;;
      compared <~ _compare_endpoint fuel openai_path method openai_op hadrian_op ;;
      let endpoint_diff := fst compared in
      let report := add_violations (snd compared) report in
      if match EndpointDiff.request_diffs endpoint_diff,
               EndpointDiff.response_diffs endpoint_diff,
               EndpointDiff.param_diffs endpoint_diff with
         | [], [], [] => false
         | _, _, _ => true
         end
      then retS (add_endpoint_diff endpoint_diff report)
      else retS (count_conformant report).

(** One turn of the loop over the paths of the OpenAI document. *)
Definition check_path (fuel : nat) (endpoint_filter : option string)
  (hadrian_paths : json) (report : ConformanceReport.t) (item : string * json)
  : ST t ConformanceReport.t :=
  let openai_path := fst item in
  let openai_methods := snd item in
  if _is_out_of_scope openai_path then retS (add_out_of_scope openai_path report)
  else if filtered_out endpoint_filter openai_path then retS report
  else
    let hadrian_path := hadrian_path_of openai_path in
    hadrian_methods <~ liftS (Py.get hadrian_paths hadrian_path (JObj [])) ;;
    foldS (check_method fuel openai_path openai_methods hadrian_methods) METHODS report.

(** The search of a Hadrian path among the values of [PATH_MAPPING]. *)
Definition is_mapped (hadrian_path : string) : bool :=
  existsb (fun m => String.eqb hadrian_path (snd m)) PATH_MAPPING.

(** One turn of the loop over the paths of the Hadrian document. *)
Definition check_hadrian_only (openai_paths : dict) (report : ConformanceReport.t)
  (hadrian_path : json) : result ConformanceReport.t :=
  match hadrian_path with
  | JStr hadrian_path =>
      if Str.startswith hadrian_path "/admin/" then Ok report
      else
        if is_mapped hadrian_path then Ok report
        else if Str.startswith hadrian_path "/api/v1/" then
          let possible_openai := Str.replace hadrian_path "/api/v1/" "/" in
          if negb (Dict.mem possible_openai openai_paths)
          then Ok (add_hadrian_only hadrian_path report)
          else Ok report
        else Ok report
  | _ => Raise AttributeError
  end.

Definition check_conformance (fuel : nat) (endpoint_filter : option string)
  : ST t ConformanceReport.t :=
  self <~ getS ;;
  openai_paths <~ liftS (Py.get (openai_spec self) "paths" (JObj [])) ;;
  hadrian_paths <~ liftS (Py.get (hadrian_spec self) "paths" (JObj [])) ;;
  openai_info <~ liftS (Py.get (openai_spec self) "info" (JObj [])) ;;
  openai_version <~ liftS (Py.get openai_info "version" (JStr "unknown")) ;;
  hadrian_info <~ liftS (Py.get (hadrian_spec self) "info" (JObj [])) ;;
  hadrian_version <~ liftS (Py.get hadrian_info "version" (JStr "unknown")) ;;
  total_openai <~ liftS (Py.len openai_paths) ;;
  total_hadrian <~ liftS (Py.len hadrian_paths) ;;
  let report :=
    ConformanceReport.mk openai_version hadrian_version total_openai total_hadrian
      0 0 [] [] [] [] in
  (* Check each OpenAI endpoint *)
  openai_items <~ liftS (Py.items openai_paths) ;;
  report <~ foldS (check_path fuel endpoint_filter hadrian_paths) openai_items report ;;
  (* Find Hadrian-only endpoints (extensions) *)
  hadrian_keys <~ liftS (Py.iter hadrian_paths) ;;
  liftS (foldR (check_hadrian_only openai_items) hadrian_keys report).

End Differ.
End ConformanceChecker.

(** * Properties *)

(** The value a stateful run returns, without the final state. *)
Definition evalS {S A : Type} (m : ST S A) (s : S) : result A :=
  match m s with
  | Ok (a, _) => Ok a
  | Raise e => Raise e
  end.

(** ** Example documents *)

Module Examples.

(** [{"components": {"schemas": {"A": {"type": "string"}, "N": {"type": "null"},
      "Loop": {"$ref": "#/components/schemas/Loop"}}}}] *)
Definition doc : json :=
  JObj [("components", JObj [("schemas", JObj [
    ("A", JObj [("type", JStr "string")]);
    ("N", JObj [("type", JStr "null")]);
    ("Loop", JObj [("$ref", JStr "#/components/schemas/Loop")])])])].

(** [{"$ref": "#/components/schemas/N"}] *)
Definition ref_to_null : json := JObj [("$ref", JStr "#/components/schemas/N")].

(** [{"oneOf": [{"$ref": "#/components/schemas/N"}, {"type": "string"}]}] *)
Definition one_of_ref_first : json :=
  JObj [("oneOf", JArr [ref_to_null; JObj [("type", JStr "string")]])].

(** [{"oneOf": [{"type": "null"}, {"$ref": "#/components/schemas/A"}]}] *)
Definition nullable_a : json :=
  JObj [("oneOf", JArr [JObj [("type", JStr "null")];
                        JObj [("$ref", JStr "#/components/schemas/A")]])].

(** [{"allOf": [{"type": "object"}],
      "properties": {"x": {"$ref": "#/components/schemas/A"}}}] *)
Definition all_of_with_sibling_properties : json :=
  JObj [("allOf", JArr [JObj [("type", JStr "object")]]);
        ("properties", JObj [("x", JObj [("$ref", JStr "#/components/schemas/A")])])].

(** [{"$ref": "#/components/schemas/Loop"}] *)
Definition self_reference : json := JObj [("$ref", JStr "#/components/schemas/Loop")].

(** [{"type": "object", "additionalProperties": false}] *)
Definition closed_object : json :=
  JObj [("type", JStr "object"); ("additionalProperties", JBool false)].

(** [{"type": "array", "items": {"type": "string"}}] *)
Definition string_array : json :=
  JObj [("type", JStr "array"); ("items", JObj [("type", JStr "string")])].

End Examples.

(** ** The type classifier *)

Section Classifier.
Import ConformanceChecker.

(** [items = schema.get("items", {})] *)
Definition items_of (d : dict) : json :=
  match Dict.get "items" d with Some i => i | None => JObj [] end.

Lemma normalize_type_str (s : string) : normalize_type (JStr s) = Ok (JStr s).
Proof. reflexivity. Qed.

(** C6 (as amended).  For a node of type ["array"] the classifier returns
    ["array<"], the classifier's result on [items] (on [{}] when there is
    none) and [">"]; for a node of type ["object"] that has the key
    [additionalProperties], whatever its value (a schema or a boolean), it
    returns ["map<string, "], the classifier's result on that value and [">"];
    for a node of type ["object"] without the key it returns ["object"]; and
    the classifier's result on a boolean is its Python spelling. *)
Theorem get_type_string_containers (n : nat) (d : dict) :
  (Dict.get "type" d = Some (JStr "array") ->
   _get_type_string (S n) (JObj d) =
     (item_type <- _get_type_string n (items_of d) ;;
      Ok ("array<" +:+ item_type +:+ ">")))
  /\ (forall ap, Dict.get "type" d = Some (JStr "object") ->
      Dict.get "additionalProperties" d = Some ap ->
      _get_type_string (S n) (JObj d) =
        (value_type <- _get_type_string n ap ;;
         Ok ("map<string, " +:+ value_type +:+ ">")))
  /\ (Dict.get "type" d = Some (JStr "object") ->
      Dict.get "additionalProperties" d = None ->
      _get_type_string (S n) (JObj d) = Ok "object")
  /\ (forall b : bool,
      _get_type_string (S n) (JBool b) = Ok (if b then "True" else "False")).
Proof.
  repeat split.
  - intros Ht. cbn [_get_type_string]. rewrite Ht, normalize_type_str. reflexivity.
  - intros ap Ht Hap. cbn [_get_type_string]. rewrite Ht, normalize_type_str, Hap.
    reflexivity.
  - intros Ht Hap. cbn [_get_type_string]. rewrite Ht, normalize_type_str, Hap.
    reflexivity.
  - intros []; reflexivity.
Qed.

(** The classifier on [{"type": "array", "items": {"type": "string"}}] and on
    [{"type": "object", "additionalProperties": false}]. *)
Lemma get_type_string_containers_witness :
  _get_type_string 3 Examples.string_array = Ok "array<string>"
  /\ _get_type_string 3 Examples.closed_object = Ok "map<string, False>".
Proof.
  split.
  - unfold Examples.string_array.
    rewrite (proj1 (get_type_string_containers 2
      [("type", JStr "array"); ("items", JObj [("type", JStr "string")])]) eq_refl).
    reflexivity.
  - unfold Examples.closed_object.
    rewrite (proj1 (proj2 (get_type_string_containers 2
      [("type", JStr "object"); ("additionalProperties", JBool false)]))
      (JBool false) eq_refl eq_refl).
    reflexivity.
Defined.

(** C6, as stated, fails on a closed object: [additionalProperties: false]
    is a boolean, not a schema, and the node is classified as a map. *)
Lemma closed_object_is_classified_as_map :
  Py.is_dict (JBool false) = false
  /\ _get_type_string 3 Examples.closed_object = Ok "map<string, False>"
  /\ _get_type_string 3 Examples.closed_object <> Ok "object".
Proof.
  split; [reflexivity | split].
  - reflexivity.
  - discriminate.
Qed.

End Classifier.

(** ** Runs that return *)

Lemma bindR_Ok {A B : Type} (m : result A) (k : A -> result B) (b : B) :
  bindR m k = Ok b -> exists a, m = Ok a /\ k a = Ok b.
Proof. destruct m as [a|e]; simpl; [eauto | discriminate]. Qed.

Lemma bindS_Ok {S A B : Type} (m : ST S A) (k : A -> ST S B) (s s2 : S) (b : B) :
  bindS m k s = Ok (b, s2) -> exists a s1, m s = Ok (a, s1) /\ k a s1 = Ok (b, s2).
Proof.
  unfold bindS. destruct (m s) as [[a s1]|e]; [eauto | discriminate].
Qed.

Lemma liftS_Ok {S A : Type} (m : result A) (s s1 : S) (a : A) :
  liftS m s = Ok (a, s1) -> m = Ok a /\ s1 = s.
Proof. unfold liftS. destruct m; intros Heq; inversion Heq; auto. Qed.

Lemma retS_Ok {S A : Type} (a b : A) (s s1 : S) :
  retS a s = Ok (b, s1) -> b = a /\ s1 = s.
Proof. unfold retS. intros Heq; inversion Heq; auto. Qed.

Lemma bindS_step {S A B : Type} (m : ST S A) (k : A -> ST S B) (s s1 : S) (a : A) :
  m s = Ok (a, s1) -> bindS m k s = k a s1.
Proof. unfold bindS. intros ->. reflexivity. Qed.

Lemma bindS_raise {S A B : Type} (m : ST S A) (k : A -> ST S B) (s : S) (e : exn) :
  m s = Raise e -> bindS m k s = Raise e.
Proof. unfold bindS. intros ->. reflexivity. Qed.

(** Decompose the hypotheses that say a composed run returned. *)
Ltac inv_run :=
  repeat match goal with
  | H : bindS _ _ _ = Ok (_, _) |- _ =>
      let a := fresh "a" in let s := fresh "s" in
      let H1 := fresh "Hrun" in let H2 := fresh "Hrun" in
      apply bindS_Ok in H; destruct H as (a & s & H1 & H2)
  | H : liftS _ _ = Ok (_, _) |- _ =>
      let H1 := fresh "Hval" in let H2 := fresh "Hst" in
      apply liftS_Ok in H; destruct H as [H1 H2]; try subst
  | H : retS _ _ = Ok (_, _) |- _ =>
      let H1 := fresh "Hval" in let H2 := fresh "Hst" in
      apply retS_Ok in H; destruct H as [H1 H2]; try subst
  | H : bindR _ _ = Ok _ |- _ =>
      let a := fresh "a" in
      let H1 := fresh "Hres" in let H2 := fresh "Hres" in
      apply bindR_Ok in H; destruct H as (a & H1 & H2)
  | H : getS _ = Ok (_, _) |- _ => unfold getS in H
  | H : modifyS _ _ = Ok (_, _) |- _ => unfold modifyS in H
  | H : Ok _ = Ok _ |- _ => inversion H; clear H; try subst
  | H : (_, _) = (_, _) |- _ => inversion H; clear H; try subst
  | H : raiseS _ _ = Ok _ |- _ => discriminate H
  | H : Raise _ = Ok _ |- _ => discriminate H
  end.

(** A property of the state that every turn of a loop keeps is kept by the
    loop. *)
Lemma foldS_invariant {S A B : Type} (P : S -> Prop) (f : B -> A -> ST S B) (l : list A) :
  (forall acc x s acc' s', P s -> f acc x s = Ok (acc', s') -> P s') ->
  forall acc s acc' s', P s -> foldS f l acc s = Ok (acc', s') -> P s'.
Proof.
  intros Hf. induction l as [|x l IH]; intros acc s acc' s' HP Hrun; simpl in Hrun.
  - inv_run. assumption.
  - inv_run. eapply IH; [|eassumption]. eapply Hf; eassumption.
Qed.

Lemma mapS_invariant {S A B : Type} (P : S -> Prop) (f : A -> ST S B) (l : list A) :
  (forall x s y s', P s -> f x s = Ok (y, s') -> P s') ->
  forall s ys s', P s -> mapS f l s = Ok (ys, s') -> P s'.
Proof.
  intros Hf. induction l as [|x l IH]; intros s ys s' HP Hrun; simpl in Hrun.
  - inv_run. assumption.
  - inv_run. eapply IH; [|eassumption]. eapply Hf; eassumption.
Qed.

(** ** The schema resolver *)

(** The options [resolve_schema] keeps: those that are not a dict whose own
    [type] is ["null"]. *)
Definition kept_options (opts : list json) : list json :=
  List.filter (fun opt => negb (OpenAPIResolver.is_null_option opt)) opts.

(** The branches of a composition node: those of [oneOf] when it is present
    and not empty, otherwise those of [anyOf] (none when that is absent). *)
Definition branches_of (d : dict) (opts : list json) : Prop :=
  (Dict.get "oneOf" d = Some (JArr opts) /\ opts <> [])
  \/ ((Dict.get "oneOf" d = None \/ Dict.get "oneOf" d = Some (JArr []))
      /\ match Dict.get "anyOf" d with Some v => v | None => JArr [] end = JArr opts
      /\ Dict.mem "oneOf" d || Dict.mem "anyOf" d = true).

(** [{"type": "null", "_nullable": True}] *)
Definition null_schema : json := JObj [("type", JStr "null"); ("_nullable", JBool true)].

(** [result = dict(resolved); result["_nullable"] = True] *)
Definition mark_nullable (resolved : dict) : json :=
  JObj (Dict.set "_nullable" (JBool true) resolved).

Section ResolverProperties.
Context `{PySet}.
Import OpenAPIResolver.

Lemma branches_of_options (d : dict) (opts : list json) :
  branches_of d opts ->
  options_of d = JArr opts /\ Dict.mem "oneOf" d || Dict.mem "anyOf" d = true.
Proof.
  unfold branches_of, options_of, Dict.mem.
  intros [[Hone Hne] | [Hone [Hany Hmem]]].
  - rewrite Hone. destruct opts; [congruence | auto].
  - split; [| exact Hmem].
    destruct Hone as [-> | ->]; simpl; exact Hany.
Qed.

Lemma resolve_schema_composition (n : nat) (doc : json) (d : dict) (opts : list json) :
  Dict.mem "$ref" d = false -> Dict.mem "allOf" d = false ->
  branches_of d opts ->
  resolve_schema (S n) doc (JObj d) =
    match kept_options opts with
    | opt :: _ =>
        resolved <~ resolve_schema n doc opt ;;
        result <~ liftS (Py.to_dict resolved) ;;
        retS (JObj (Dict.set "_nullable" (JBool true) result))
    | [] => retS null_schema
    end.
Proof.
  intros Href Hall Hbr. apply branches_of_options in Hbr as [Hopt Hmem].
  cbn [resolve_schema]. rewrite Href, Hall, Hmem, Hopt. reflexivity.
Qed.

(** C3 (as amended).  On a node that carries [oneOf] or [anyOf] (and no
    [$ref] or [allOf]) the branches are those of [oneOf] when it is present
    and not empty, otherwise those of [anyOf]; the branches whose own declared
    [type] is ["null"] are dropped (a branch that only resolves to a null type
    is kept); if a branch remains the result is the resolution of the first
    one with [_nullable = True] added, and if none remains it is the null
    schema marked [_nullable = True].  In particular, for one branch that is
    not declared null and one that is, in either order, the result is the
    resolution of the former with [_nullable = True] added. *)
Theorem resolve_schema_one_of (n : nat) (doc : json) (d : dict) (opts : list json)
  (c : gmap string json) :
  Dict.mem "$ref" d = false -> Dict.mem "allOf" d = false ->
  branches_of d opts ->
  (forall opt rest r c',
     kept_options opts = opt :: rest ->
     resolve_schema n doc opt c = Ok (JObj r, c') ->
     resolve_schema (S n) doc (JObj d) c = Ok (mark_nullable r, c'))
  /\ (kept_options opts = [] ->
      resolve_schema (S n) doc (JObj d) c = Ok (null_schema, c))
  /\ (forall x nul r c',
        is_null_option x = false -> is_null_option nul = true ->
        opts = [x; nul] \/ opts = [nul; x] ->
        resolve_schema n doc x c = Ok (JObj r, c') ->
        resolve_schema (S n) doc (JObj d) c = Ok (mark_nullable r, c')).
Proof.
  intros Href Hall Hbr.
  pose proof (resolve_schema_composition n doc d opts Href Hall Hbr) as Heq.
  assert (Hfirst : forall opt rest r c',
            kept_options opts = opt :: rest ->
            resolve_schema n doc opt c = Ok (JObj r, c') ->
            resolve_schema (S n) doc (JObj d) c = Ok (mark_nullable r, c')).
  { intros opt rest r c' Hkept Hrun. rewrite Heq, Hkept.
    rewrite (bindS_step _ _ _ _ _ Hrun). reflexivity. }
  split; [exact Hfirst | split].
  - intros Hkept. rewrite Heq, Hkept. reflexivity.
  - intros x nul r c' Hx Hnul Hopts Hrun.
    destruct Hopts as [-> | ->].
    + apply (Hfirst x []); [| exact Hrun].
      unfold kept_options. simpl. rewrite Hx, Hnul. reflexivity.
    + apply (Hfirst x []); [| exact Hrun].
      unfold kept_options. simpl. rewrite Hx, Hnul. reflexivity.
Qed.

(** C7: resolution is not idempotent, and leaves a [$ref] behind, on
    [{"allOf": [{"type": "object"}], "properties": {"x": {"$ref": ...}}}]:
    the sibling [properties] is copied over the merged one as it is. *)
Theorem resolve_schema_all_of_sibling_properties :
  let once :=
    JObj [("type", JStr "object");
          ("properties", JObj [("x", JObj [("$ref", JStr "#/components/schemas/A")])]);
          ("required", JArr [])] in
  let twice :=
    JObj [("type", JStr "object");
          ("properties", JObj [("x", JObj [("type", JStr "string")])]);
          ("required", JArr [])] in
  evalS (resolve_schema 8 Examples.doc Examples.all_of_with_sibling_properties) ∅ = Ok once
  /\ evalS (resolve_schema 8 Examples.doc once) ∅ = Ok twice
  /\ once <> twice.
Proof.
  cbv zeta. split; [vm_compute; reflexivity | split].
  - vm_compute. reflexivity.
  - discriminate.
Qed.

End ResolverProperties.

(** [{"oneOf": [{"type": "null"}, {"$ref": "#/components/schemas/A"}]}]
    resolves to [{"type": "string", "_nullable": True}]. *)
Lemma resolve_schema_one_of_witness :
  evalS (OpenAPIResolver.resolve_schema 4 Examples.doc Examples.nullable_a) ∅
  = Ok (JObj [("type", JStr "string"); ("_nullable", JBool true)]).
Proof.
  unfold evalS, Examples.nullable_a.
  pose proof (resolve_schema_one_of 3 Examples.doc
    [("oneOf", JArr [JObj [("type", JStr "null")];
                     JObj [("$ref", JStr "#/components/schemas/A")]])]
    [JObj [("type", JStr "null")]; JObj [("$ref", JStr "#/components/schemas/A")]]
    ∅ eq_refl eq_refl) as Hthm.
  destruct Hthm as (_ & _ & Hpair).
  - left. split; [reflexivity | discriminate].
  - rewrite (Hpair (JObj [("$ref", JStr "#/components/schemas/A")])
               (JObj [("type", JStr "null")])
               [("type", JStr "string")]
               (<["#/components/schemas/A" := JObj [("type", JStr "string")]]> ∅)
               eq_refl eq_refl (or_intror eq_refl) eq_refl).
    reflexivity.
Defined.

(** C3, as stated, fails when the first branch is a reference to a null
    type: its resolved type is exactly ["null"], yet it is not dropped, and
    the result is not the resolution of the string branch marked nullable. *)
Lemma one_of_keeps_reference_to_null :
  evalS (OpenAPIResolver.resolve_schema 4 Examples.doc Examples.ref_to_null) ∅
    = Ok (JObj [("type", JStr "null")])
  /\ evalS (OpenAPIResolver.resolve_schema 4 Examples.doc Examples.one_of_ref_first) ∅
    = Ok null_schema
  /\ evalS (OpenAPIResolver.resolve_schema 4 Examples.doc Examples.one_of_ref_first) ∅
    <> Ok (JObj [("type", JStr "string"); ("_nullable", JBool true)]).
Proof.
  split; [vm_compute; reflexivity | split].
  - vm_compute. reflexivity.
  - vm_compute. discriminate.
Qed.

(** *** Cyclic references *)

(** The node [r] points to is itself a reference, to [r']. *)
Definition ref_step (doc : json) (r r' : string) : Prop :=
  Str.startswith r "#/" = true
  /\ exists d, OpenAPIResolver.walk doc (OpenAPIResolver.parts_of r) = Some (JObj d)
               /\ Dict.get "$ref" d = Some (JStr r').

(** A set of references in which every one leads to another one of the set:
    the chain from any of them never ends (a cycle, or a chain into one). *)
Definition cyclic_refs (doc : json) (C : string -> Prop) : Prop :=
  forall r, C r -> exists r', C r' /\ ref_step doc r r'.

Section CyclicReferences.
Context `{PySet}.
Import OpenAPIResolver.

Lemma cyclic_ref_raises (doc : json) (C : string -> Prop) (c : gmap string json) :
  cyclic_refs doc C -> (forall r, C r -> c !! r = None) ->
  forall fuel r, C r ->
    resolve_ref fuel doc (JStr r) c = Raise RecursionError
    /\ (forall d, Dict.get "$ref" d = Some (JStr r) ->
        resolve_schema fuel doc (JObj d) c = Raise RecursionError).
Proof.
  intros Hcyc Hfresh. induction fuel as [|n IH]; intros r Hr.
  - split; [reflexivity | intros; reflexivity].
  - split.
    + destruct (Hcyc r Hr) as (r' & Hr' & Hprefix & d & Hwalk & Hnext).
      cbn [resolve_ref]. unfold bindS at 1. unfold getS.
      rewrite (Hfresh r Hr), Hprefix. cbn [negb].
      rewrite Hwalk.
      apply bindS_raise. apply (IH r' Hr'). exact Hnext.
    + intros d Hd. cbn [resolve_schema]. unfold Dict.mem. rewrite Hd.
      apply bindS_raise. apply (IH r Hr).
Qed.

(** C2 (as amended).  On a node whose [$ref] chain is cyclic (a
    self-reference included) and not yet cached, resolution has no depth cap
    and no placeholder: whatever number of nested calls the interpreter
    allows, the run ends with [RecursionError]. *)
Theorem resolve_schema_cyclic_ref (doc : json) (C : string -> Prop)
  (c : gmap string json) (fuel : nat) (r : string) (d : dict) :
  cyclic_refs doc C -> (forall r, C r -> c !! r = None) ->
  C r -> Dict.get "$ref" d = Some (JStr r) ->
  resolve_schema fuel doc (JObj d) c = Raise RecursionError.
Proof.
  intros Hcyc Hfresh Hr Hd.
  destruct (cyclic_ref_raises doc C c Hcyc Hfresh fuel r Hr) as [_ Hnode].
  apply Hnode. exact Hd.
Qed.

End CyclicReferences.

Lemma self_reference_is_cyclic :
  cyclic_refs Examples.doc (fun r => r = "#/components/schemas/Loop").
Proof.
  intros r ->. exists "#/components/schemas/Loop". split; [reflexivity |].
  split; [reflexivity |].
  exists [("$ref", JStr "#/components/schemas/Loop")]. split; reflexivity.
Qed.

(** With 64 nested calls allowed, the self-reference of the example
    document raises. *)
Lemma resolve_schema_cyclic_ref_witness :
  OpenAPIResolver.resolve_schema 64 Examples.doc Examples.self_reference ∅
  = Raise RecursionError.
Proof.
  apply (resolve_schema_cyclic_ref Examples.doc
           (fun r => r = "#/components/schemas/Loop") ∅ 64
           "#/components/schemas/Loop").
  - exact self_reference_is_cyclic.
  - intros r _. apply lookup_empty.
  - reflexivity.
  - reflexivity.
Defined.

(** C2, as stated, fails on the self-reference: no number of allowed nested
    calls makes its resolution return a schema, placeholder or other. *)
Lemma self_reference_never_resolves :
  ~ exists fuel v c,
      OpenAPIResolver.resolve_schema fuel Examples.doc Examples.self_reference ∅
      = Ok (v, c).
Proof.
  intros (fuel & v & c & Hrun).
  destruct (cyclic_ref_raises Examples.doc (fun r => r = "#/components/schemas/Loop") ∅
              self_reference_is_cyclic (fun r _ => lookup_empty r) fuel
              "#/components/schemas/Loop" eq_refl) as [_ Hnode].
  unfold Examples.self_reference in Hrun.
  rewrite (Hnode [("$ref", JStr "#/components/schemas/Loop")] eq_refl) in Hrun.
  discriminate.
Qed.

(** *** Properties of the cache that every resolution keeps *)









Section CacheInvariant.
Context `{PySet}.
Import OpenAPIResolver.
Variable doc : json.
Variable P : gmap string json -> Prop.
Hypothesis P_insert : forall n r target v c c',
  Str.startswith r "#/" = true ->
  walk doc (parts_of r) = Some target ->
  resolve_schema n doc target c = Ok (v, c') ->
  P c' -> P (<[r := v]> c').

End CacheInvariant.

(** *** Dangling and malformed references *)





Section DanglingReferences.
Context `{PySet}.
Import OpenAPIResolver.








End DanglingReferences.


(** ** The report *)

(** Case analysis on what a run that returned branched on. *)
Ltac split_run :=
  match goal with
  | H : (if ?b then _ else _) _ = Ok _ |- _ => destruct b eqn:?
  | H : (match ?x with _ => _ end) _ = Ok _ |- _ => destruct x eqn:?
  | H : (if ?b then _ else _) = Ok _ |- _ => destruct b eqn:?
  | H : (match ?x with _ => _ end) = Ok _ |- _ => destruct x eqn:?
  end.

Lemma foldS_acc_invariant {S A B : Type} (I : B -> Prop) (f : B -> A -> ST S B)
  (l : list A) :
  (forall acc x s acc' s', I acc -> f acc x s = Ok (acc', s') -> I acc') ->
  forall acc s acc' s', I acc -> foldS f l acc s = Ok (acc', s') -> I acc'.
Proof.
  intros Hf. induction l as [|x l IH]; intros acc s acc' s' HI Hrun; simpl in Hrun.
  - inv_run. assumption.
  - inv_run. eapply IH; [|eassumption]. eapply Hf; eassumption.
Qed.

Lemma foldR_acc_invariant {A B : Type} (I : B -> Prop) (f : B -> A -> result B)
  (l : list A) :
  (forall acc x acc', I acc -> f acc x = Ok acc' -> I acc') ->
  forall acc acc', I acc -> foldR f l acc = Ok acc' -> I acc'.
Proof.
  intros Hf. induction l as [|x l IH]; intros acc acc' HI Hrun; simpl in Hrun.
  - inv_run. assumption.
  - inv_run. eapply IH; [|eassumption]. eapply Hf; eassumption.
Qed.

Section Report.
Context `{PySet}.
Import ConformanceChecker.






End Report.

(** ** Where violations come from *)

Section Locations.
Context `{PySet}.
Import ConformanceChecker.

(** Every violation of a list is about [location]. *)
Definition all_at (location : string) (vs : list Violation.t) : Prop :=
  Forall (fun v => Violation.location v = location) vs.

Lemma compare_schemas_location (n : nat) :
  forall openai_schema hadrian_schema context endpoint_path method location found,
    _compare_schemas n openai_schema hadrian_schema context endpoint_path method location
      = Ok found ->
    all_at location (snd found).
Proof.
  unfold all_at.
  induction n as [|n IH]; intros o h ctx p m loc found Hrun; [discriminate |].
  cbn [_compare_schemas] in Hrun. inv_run.
  eapply (foldR_acc_invariant (fun acc : findings => all_at loc (snd acc)));
    [| | eassumption].
  - intros acc x acc' Hacc Hstep. unfold all_at in *.
    repeat (first [progress inv_run | split_run]); cbn [fst snd]; try assumption.
    apply Forall_app. split; [assumption |]. eapply IH. eassumption.
  - eapply (foldR_acc_invariant (fun acc : findings => all_at loc (snd acc)));
      [| | eassumption].
    + intros acc x acc' Hacc Hstep. unfold all_at in *.
      repeat (first [progress inv_run | split_run]); cbn [fst snd]; try assumption.
      apply Forall_app. split; [assumption |]. repeat constructor.
    + eapply (foldR_acc_invariant (fun acc : findings => all_at loc (snd acc)));
        [| | eassumption].
      * intros acc x acc' Hacc Hstep. unfold all_at in *.
        repeat (first [progress inv_run | split_run]); cbn [fst snd]; try assumption.
        apply Forall_app. split; [assumption |]. repeat constructor.
      * constructor.
Qed.

Lemma compare_params_location (path method_upper : string) (openai_op hadrian_op : json)
  (found : findings) :
  compare_params path method_upper openai_op hadrian_op = Ok found ->
  all_at "param" (snd found).
Proof.
  unfold compare_params. intros Hrun. inv_run.
  eapply (foldR_acc_invariant (fun acc : findings => all_at "param" (snd acc)));
    [| | eassumption].
  - intros acc x acc' Hacc Hstep. unfold all_at in *.
    repeat (first [progress inv_run | split_run]); cbn [fst snd]; try assumption.
    apply Forall_app. split; [assumption |]. repeat constructor.
  - eapply (foldR_acc_invariant (fun acc : findings => all_at "param" (snd acc)));
      [| | eassumption].
    + intros acc x acc' Hacc Hstep. unfold all_at in *.
      repeat (first [progress inv_run | split_run]); cbn [fst snd]; try assumption.
      apply Forall_app. split; [assumption |]. repeat constructor.
    + constructor.
Qed.

Lemma compare_body_location (fuel : nat) (path method_upper location : string)
  (openai_body hadrian_body : json) (self self' : ConformanceChecker.t)
  (found : findings) :
  compare_body fuel path method_upper location openai_body hadrian_body self
    = Ok (found, self') ->
  all_at location (snd found).
Proof.
  unfold compare_body. intros Hrun.
  destruct (Py.truthy openai_body && Py.truthy hadrian_body).
  - inv_run. eapply compare_schemas_location. eassumption.
  - inv_run. constructor.
Qed.

Lemma compare_body_skipped (fuel : nat) (path method_upper location : string)
  (openai_body hadrian_body : json) (self self' : ConformanceChecker.t)
  (found : findings) :
  openai_body = JObj [] \/ hadrian_body = JObj [] ->
  compare_body fuel path method_upper location openai_body hadrian_body self
    = Ok (found, self') ->
  found = ([], []) /\ self' = self.
Proof.
  unfold compare_body. intros Hlacks Hrun.
  assert (Hskip : Py.truthy openai_body && Py.truthy hadrian_body = false).
  { destruct Hlacks as [-> | ->]; [reflexivity | apply andb_false_r]. }
  rewrite Hskip in Hrun. inv_run. auto.
Qed.

(** C10.  When the reference or the implementation operation has no
    [application/json] schema for the request body (the lookup falls back to
    [{}]), the endpoint has no request difference and no violation located
    in the request, whatever the other side defines; likewise for the body
    of the 200 response. *)
Theorem compare_endpoint_skips_body (fuel : nat) (path method : string)
  (openai_op hadrian_op : json) (self self' : ConformanceChecker.t)
  (diff : EndpointDiff.t) (violations : list Violation.t) :
  _compare_endpoint fuel path method openai_op hadrian_op self
    = Ok ((diff, violations), self') ->
  (request_body_schema openai_op = Ok (JObj [])
   \/ request_body_schema hadrian_op = Ok (JObj []) ->
   EndpointDiff.request_diffs diff = []
   /\ forall v, In v violations -> Violation.location v <> "request")
  /\ (response_body_schema openai_op = Ok (JObj [])
      \/ response_body_schema hadrian_op = Ok (JObj []) ->
      EndpointDiff.response_diffs diff = []
      /\ forall v, In v violations -> Violation.location v <> "response").
Proof.
  unfold _compare_endpoint. intros Hrun. inv_run.
  match goal with
  | Hq : compare_body _ _ _ "request" _ _ _ = Ok _,
    Hp : compare_body _ _ _ "response" _ _ _ = Ok _,
    Hs : compare_params _ _ _ _ = Ok _ |- _ =>
      pose proof (compare_body_location _ _ _ _ _ _ _ _ _ Hq) as Hreq;
      pose proof (compare_body_location _ _ _ _ _ _ _ _ _ Hp) as Hresp;
      pose proof (compare_params_location _ _ _ _ _ Hs) as Hpar
  end.
  unfold all_at in *. rewrite Forall_forall in Hreq, Hresp, Hpar.
  cbn [EndpointDiff.request_diffs EndpointDiff.response_diffs fst snd].
  split; intros Hlacks.
  - match goal with
    | Hq : compare_body _ _ _ "request" ?ob ?hb _ = Ok _ |- _ =>
        assert (Hl : ob = JObj [] \/ hb = JObj [])
          by (destruct Hlacks; [left | right]; congruence);
        destruct (compare_body_skipped _ _ _ _ _ _ _ _ _ Hl Hq) as [-> _]
    end.
    split; [reflexivity |].
    intros v Hv. cbn [snd] in Hv. rewrite app_nil_l in Hv.
    apply in_app_or in Hv as [Hv | Hv].
    + apply list_elem_of_In, Hresp in Hv. rewrite Hv. discriminate.
    + apply list_elem_of_In, Hpar in Hv. rewrite Hv. discriminate.
  - match goal with
    | Hp : compare_body _ _ _ "response" ?ob ?hb _ = Ok _ |- _ =>
        assert (Hl : ob = JObj [] \/ hb = JObj [])
          by (destruct Hlacks; [left | right]; congruence);
        destruct (compare_body_skipped _ _ _ _ _ _ _ _ _ Hl Hp) as [-> _]
    end.
    split; [reflexivity |].
    intros v Hv. cbn [snd] in Hv. rewrite app_nil_l in Hv.
    apply in_app_or in Hv as [Hv | Hv].
    + apply list_elem_of_In, Hreq in Hv. rewrite Hv. discriminate.
    + apply list_elem_of_In, Hpar in Hv. rewrite Hv. discriminate.
Qed.

End Locations.

(** ** An example run *)

Module CheckerExamples.

Definition json_body (schema : json) : json :=
  JObj [("content", JObj [("application/json", JObj [("schema", schema)])])].

(** A reference operation whose request body requires [name]. *)
Definition openai_post : json :=
  JObj [("requestBody", json_body (JObj [
    ("type", JStr "object");
    ("properties", JObj [("name", JObj [("type", JStr "string")])]);
    ("required", JArr [JStr "name"])]))].

(** An implementation operation whose request body has the marked extension
    [internal_id] only. *)
Definition hadrian_post : json :=
  JObj [("requestBody", json_body (JObj [
    ("type", JStr "object");
    ("properties", JObj [("internal_id", JObj [
       ("type", JStr "string");
       ("description", JStr "**Hadrian Extension:** internal tracking id")])])]))].

(** Reference paths: [/widgets] (POST), [/gadgets] (POST), [/legacy] (GET). *)
Definition openai_paths : dict := [
  ("/widgets", JObj [("post", openai_post)]);
  ("/gadgets", JObj [("post", openai_post)]);
  ("/legacy", JObj [("get", JObj [])])].

Definition openai_doc : json := JObj [("paths", JObj openai_paths)].

(** Implementation paths: [/api/v1/widgets] (POST), [/api/v1/gadgets] (POST,
    no request body), [/api/v1/extra] and [/health]. *)
Definition hadrian_paths : dict := [
  ("/api/v1/widgets", JObj [("post", hadrian_post)]);
  ("/api/v1/gadgets", JObj [("post", JObj [])]);
  ("/api/v1/extra", JObj [("get", JObj [])]);
  ("/health", JObj [("get", JObj [])])].

Definition hadrian_doc : json := JObj [("paths", JObj hadrian_paths)].

Definition checker : ConformanceChecker.t :=
  ConformanceChecker.mk openai_doc hadrian_doc false
    (OpenAPIResolver.mk openai_doc ∅) (OpenAPIResolver.mk hadrian_doc ∅).

(** The list of implementation-only endpoints of a run. *)
Definition hadrian_only_of (run : result (ConformanceReport.t * ConformanceChecker.t))
  : option (list string) :=
  match run with
  | Ok (report, _) => Some (ConformanceReport.hadrian_only_endpoints report)
  | Raise _ => None
  end.

End CheckerExamples.

Lemma example_checker_init :
  ConformanceChecker.init CheckerExamples.openai_doc CheckerExamples.hadrian_doc false
  = Ok CheckerExamples.checker.
Proof. reflexivity. Qed.


(** [POST /gadgets]: the reference requires [name] in the request body, the
    implementation has no request body; nothing is reported for the request. *)
Lemma compare_endpoint_skips_body_witness :
  match ConformanceChecker._compare_endpoint 8 "/gadgets" "post"
          CheckerExamples.openai_post (JObj []) CheckerExamples.checker with
  | Ok ((diff, violations), _) =>
      EndpointDiff.request_diffs diff = []
      /\ forall v, In v violations -> Violation.location v <> "request"
  | Raise _ => False
  end.
Proof.
  destruct (ConformanceChecker._compare_endpoint 8 "/gadgets" "post"
              CheckerExamples.openai_post (JObj []) CheckerExamples.checker)
    as [[[diff violations] self']|e] eqn:Hrun.
  - apply (compare_endpoint_skips_body 8 "/gadgets" "post" CheckerExamples.openai_post
             (JObj []) CheckerExamples.checker self' diff violations Hrun).
    right. reflexivity.
  - vm_compute in Hrun. discriminate.
Defined.

(** ** Implementation-only endpoints *)

(** What the second loop of [check_conformance] lists: a path under
    [/api/v1/] that is not under [/admin/], is not a value of the path
    mapping, and whose name with every [/api/v1/] replaced by [/] is not a
    reference path. *)
Definition listed_as_extension (openai_paths : dict) (hadrian_path : string) : bool :=
  negb (Str.startswith hadrian_path "/admin/")
  && negb (ConformanceChecker.is_mapped hadrian_path)
  && Str.startswith hadrian_path "/api/v1/"
  && negb (Dict.mem (Str.replace hadrian_path "/api/v1/" "/") openai_paths).

Section Extensions.
Context `{PySet}.
Import ConformanceChecker.

Lemma check_method_hadrian_only (fuel : nat) (openai_path : string)
  (openai_methods hadrian_methods : json) (report : ConformanceReport.t)
  (method : string) (self self' : ConformanceChecker.t) (report' : ConformanceReport.t) :
  check_method fuel openai_path openai_methods hadrian_methods report method self
    = Ok (report', self') ->
  R.hadrian_only_endpoints report' = R.hadrian_only_endpoints report.
Proof.
  unfold check_method. intros Hrun.
  repeat (first [progress inv_run | split_run]); reflexivity.
Qed.

Lemma check_path_hadrian_only (fuel : nat) (endpoint_filter : option string)
  (hadrian_paths : json) (report : ConformanceReport.t) (item : string * json)
  (self self' : ConformanceChecker.t) (report' : ConformanceReport.t) :
  check_path fuel endpoint_filter hadrian_paths report item self = Ok (report', self') ->
  R.hadrian_only_endpoints report' = R.hadrian_only_endpoints report.
Proof.
  unfold check_path. intros Hrun.
  repeat (first [progress inv_run | split_run]); try reflexivity.
  eapply (foldS_acc_invariant
            (fun r => R.hadrian_only_endpoints r = R.hadrian_only_endpoints report));
    [| reflexivity | eassumption].
  intros ? ? ? ? ? Hacc Hstep. rewrite <- Hacc.
  eapply check_method_hadrian_only; eassumption.
Qed.

Lemma check_hadrian_only_listed (openai_paths : dict) (keys : list string) :
  forall report report',
    foldR (check_hadrian_only openai_paths) (map JStr keys) report = Ok report' ->
    R.hadrian_only_endpoints report'
    = R.hadrian_only_endpoints report
      ++ List.filter (listed_as_extension openai_paths) keys.
Proof.
  induction keys as [|k keys IH]; intros report report' Hrun; simpl in Hrun.
  - inv_run. simpl. rewrite app_nil_r. reflexivity.
  - inv_run. apply IH in Hres0. rewrite Hres0. clear Hres0.
    unfold check_hadrian_only in Hres. unfold listed_as_extension. simpl.
    destruct (Str.startswith k "/admin/"); [inv_run; reflexivity |].
    destruct (is_mapped k); [inv_run; reflexivity |].
    destruct (Str.startswith k "/api/v1/"); [| inv_run; reflexivity].
    destruct (Dict.mem (Str.replace k "/api/v1/" "/") openai_paths);
      simpl in Hres; inv_run; simpl; [reflexivity |].
    rewrite <- app_assoc. reflexivity.
Qed.

Lemma mapping_value_is_mapped (p t : string) :
  Dict.get p PATH_MAPPING = Some t -> is_mapped t = true.
Proof.
  unfold is_mapped. induction PATH_MAPPING as [|[k v] M IH]; simpl; [discriminate |].
  destruct (String.eqb p k).
  - intros Heq. inversion Heq. rewrite String.eqb_refl. reflexivity.
  - intros Hget. rewrite (IH Hget). apply orb_true_r.
Qed.

Lemma prefix_cons (a b : Ascii.ascii) (s1 s2 : string) :
  String.prefix (String a s1) (String b s2)
  = if Ascii.ascii_dec a b then String.prefix s1 s2 else false.
Proof. reflexivity. Qed.

Lemma prefix_cons_same (a : Ascii.ascii) (s1 s2 : string) :
  String.prefix (String a s1) (String a s2) = String.prefix s1 s2.
Proof. rewrite prefix_cons. destruct (Ascii.ascii_dec a a); congruence. Qed.

Lemma prefix_empty (s : string) : String.prefix "" s = true.
Proof. destruct s; reflexivity. Qed.

Lemma append_cons (a : Ascii.ascii) (s t : string) :
  String a s +:+ t = String a (s +:+ t).
Proof. reflexivity. Qed.

Lemma append_empty (t : string) : "" +:+ t = t.
Proof. reflexivity. Qed.

Lemma replace_from_absent (old new s : string) :
  Str.contains old s = false -> Str.replace_from old new 0 s = s.
Proof.
  induction s as [|c s IH]; [reflexivity |].
  cbn [Str.contains Str.replace_from]. intros Hno.
  apply orb_false_iff in Hno as [Hprefix Hrest].
  rewrite Hprefix, (IH Hrest). reflexivity.
Qed.

Lemma replace_prefixed (rest : string) :
  Str.replace ("/api/v1/" +:+ rest) "/api/v1/" "/"
  = "/" +:+ Str.replace rest "/api/v1/" "/".
Proof.
  unfold Str.replace. rewrite !append_cons, !append_empty.
  cbn [Str.replace_from]. rewrite !prefix_cons_same, prefix_empty.
  reflexivity.
Qed.

Lemma prefixed_path_replaced (p : string) :
  Str.startswith ("/api/v1" +:+ p) "/api/v1/" = true ->
  Str.contains "/api/v1/" (Str.drop 8 ("/api/v1" +:+ p)) = false ->
  Str.replace ("/api/v1" +:+ p) "/api/v1/" "/" = p.
Proof.
  unfold Str.startswith. rewrite !append_cons, !append_empty, !prefix_cons_same.
  destruct p as [|b p]; [discriminate |].
  rewrite prefix_cons. destruct (Ascii.ascii_dec _ b) as [<- | Hne]; [| discriminate].
  intros _ Hno. cbn [Str.drop] in Hno.
  pose proof (replace_prefixed p) as Hr.
  rewrite !append_cons, !append_empty in Hr. rewrite Hr. unfold Str.replace.
  rewrite (replace_from_absent _ _ _ Hno). reflexivity.
Qed.

(** C8 (as amended).  The list of implementation-extension endpoints consists
    of the paths of the implementation document, in order, that start with
    [/api/v1/], are not under [/admin/], are not a value of the static path
    mapping, and whose name with every [/api/v1/] replaced by [/] is not a
    reference path (a path outside [/api/v1/] is never listed); and no
    reference path is matched with a listed path in which [/api/v1/] occurs
    only at the front. *)
Theorem hadrian_only_endpoints_listed (fuel : nat) (endpoint_filter : option string)
  (self self' : ConformanceChecker.t) (report : ConformanceReport.t)
  (openai_paths hadrian_paths : dict) :
  check_conformance fuel endpoint_filter self = Ok (report, self') ->
  Py.get (openai_spec self) "paths" (JObj []) = Ok (JObj openai_paths) ->
  Py.get (hadrian_spec self) "paths" (JObj []) = Ok (JObj hadrian_paths) ->
  R.hadrian_only_endpoints report
    = List.filter (listed_as_extension openai_paths) (Dict.keys hadrian_paths)
  /\ (forall h, In h (R.hadrian_only_endpoints report) ->
      Str.contains "/api/v1/" (Str.drop 8 h) = false ->
      forall p, Dict.mem p openai_paths = true -> hadrian_path_of p <> h).
Proof.
  intros Hrun Hopenai Hhadrian.
  assert (Hlist : R.hadrian_only_endpoints report
                  = List.filter (listed_as_extension openai_paths) (Dict.keys hadrian_paths)).
  { unfold check_conformance in Hrun. inv_run.
    rewrite Hopenai in *. rewrite Hhadrian in *. inv_run.
    simpl in *. inv_run.
    match goal with
    | Hloop : foldR (check_hadrian_only _) _ _ = Ok _ |- _ =>
        apply check_hadrian_only_listed in Hloop; rewrite Hloop
    end.
    match goal with
    | Hloop : foldS (check_path _ _ _) _ _ _ = Ok (?r, _) |- _ =>
        assert (Hnone : R.hadrian_only_endpoints r = [])
    end.
    { eapply (foldS_acc_invariant (fun r => R.hadrian_only_endpoints r = []));
        [| | eassumption]; [| reflexivity].
      intros ? ? ? ? ? Hacc Hstep. rewrite <- Hacc.
      eapply check_path_hadrian_only; eassumption. }
    rewrite Hnone. reflexivity. }
  split; [exact Hlist |].
  intros h Hin Honce p Hp Hmatch.
  rewrite Hlist in Hin. apply filter_In in Hin as [_ Hlisted].
  unfold listed_as_extension in Hlisted.
  apply andb_true_iff in Hlisted as [Hlisted Hfree].
  apply andb_true_iff in Hlisted as [Hlisted Hprefix].
  apply andb_true_iff in Hlisted as [_ Hunmapped].
  apply negb_true_iff in Hfree. apply negb_true_iff in Hunmapped.
  assert (Hfallback : h = "/api/v1" +:+ p).
  { unfold hadrian_path_of in Hmatch.
    destruct (Dict.get p PATH_MAPPING) as [t|] eqn:Hget; [| congruence].
    destruct (negb (String.eqb t "")); [| congruence].
    subst t. apply mapping_value_is_mapped in Hget. congruence. }
  rewrite Hfallback in Hprefix, Honce, Hfree.
  rewrite (prefixed_path_replaced p Hprefix Honce) in Hfree. congruence.
Qed.

End Extensions.

(** In the example run the only listed endpoint is [/api/v1/extra]. *)
Lemma hadrian_only_endpoints_listed_witness :
  match ConformanceChecker.check_conformance 8 None CheckerExamples.checker with
  | Ok (report, _) =>
      ConformanceReport.hadrian_only_endpoints report = ["/api/v1/extra"]
      /\ (forall h, In h (ConformanceReport.hadrian_only_endpoints report) ->
          Str.contains "/api/v1/" (Str.drop 8 h) = false ->
          forall p, Dict.mem p CheckerExamples.openai_paths = true ->
                    ConformanceChecker.hadrian_path_of p <> h)
  | Raise _ => False
  end.
Proof.
  destruct (ConformanceChecker.check_conformance 8 None CheckerExamples.checker)
    as [[report self']|e] eqn:Hrun.
  - destruct (hadrian_only_endpoints_listed 8 None CheckerExamples.checker self' report
                CheckerExamples.openai_paths CheckerExamples.hadrian_paths
                Hrun eq_refl eq_refl) as [Hlist Hmatched].
    split; [rewrite Hlist; reflexivity | exact Hmatched].
  - vm_compute in Hrun. discriminate.
Defined.

(** C8, as stated, fails on [/health]: it is a path of the implementation
    document only, not a value of the path mapping, not the counterpart of a
    reference path and not under [/admin/], and it is not listed. *)
Lemma health_endpoint_not_listed :
  In "/health" (Dict.keys CheckerExamples.hadrian_paths)
  /\ Dict.mem "/health" CheckerExamples.openai_paths = false
  /\ ConformanceChecker.is_mapped "/health" = false
  /\ Str.startswith "/health" "/admin/" = false
  /\ forallb (fun p => negb (String.eqb (ConformanceChecker.hadrian_path_of p) "/health"))
       (Dict.keys CheckerExamples.openai_paths) = true
  /\ CheckerExamples.hadrian_only_of
       (ConformanceChecker.check_conformance 8 None CheckerExamples.checker)
     = Some ["/api/v1/extra"].
Proof.
  split; [simpl; tauto |].
  split; [reflexivity |].
  split; [reflexivity |].
  split; [reflexivity |].
  split; [reflexivity |].
  vm_compute. reflexivity.
Qed.

(** ** Resolution as a function of the node and the document

    The specification describes resolution as a pure function that the
    implementation memoizes by reference string.  [PureResolver] is that
    function: the algorithm of [OpenAPIResolver] without the cache.  The
    results below show that the cache does not change what is returned. *)

Module PureResolver.
Section Pure.
Context `{PySet}.
Import OpenAPIResolver.

Fixpoint resolve_schema (fuel : nat) (doc : json) (schema : json) {struct fuel}
  : result json :=
  match fuel with
  | O => Raise RecursionError
  | S n =>
      match schema with
      | JObj d =>
          if Dict.mem "$ref" d then
            resolved <- resolve_ref n doc
              (match Dict.get "$ref" d with Some r => r | None => JNull end) ;;
            result <- Py.to_dict resolved ;;
            Ok (JObj (Dict.overlay "$ref" d result))
          else if Dict.mem "allOf" d then
            subs <- Py.iter
              (match Dict.get "allOf" d with Some x => x | None => JNull end) ;;
            merged <- foldR
              (fun merged sub_schema =>
                 resolved <- resolve_schema n doc sub_schema ;;
                 _merge_schemas n doc merged resolved)
              subs
              [("type", JStr "object"); ("properties", JObj []); ("required", JArr [])] ;;
            Ok (JObj (Dict.overlay "allOf" d merged))
          else if Dict.mem "oneOf" d || Dict.mem "anyOf" d then
            options <- Py.iter (options_of d) ;;
            match List.filter (fun opt => negb (is_null_option opt)) options with
            | opt :: _ =>
                resolved <- resolve_schema n doc opt ;;
                result <- Py.to_dict resolved ;;
                Ok (JObj (Dict.set "_nullable" (JBool true) result))
            | [] => Ok (JObj [("type", JStr "null"); ("_nullable", JBool true)])
            end
          else
            result <-
              match Dict.get "properties" d with
              | Some props =>
                  items <- Py.items props ;;
                  resolved <- mapR
                    (fun kv => v <- resolve_schema n doc (snd kv) ;; Ok (fst kv, v))
                    items ;;
                  Ok (Dict.set "properties" (JObj resolved) d)
              | None => Ok d
              end ;;
            result <-
              match Dict.get "items" result with
              | Some items =>
                  v <- resolve_schema n doc items ;;
                  Ok (Dict.set "items" v result)
              | None => Ok result
              end ;;
            result <-
              match Dict.get "additionalProperties" result with
              | Some (JObj ap) =>
                  v <- resolve_schema n doc (JObj ap) ;;
                  Ok (Dict.set "additionalProperties" v result)
              | _ => Ok result
              end ;;
            Ok (JObj result)
      | _ => Ok schema
      end
  end

with resolve_ref (fuel : nat) (doc : json) (ref : json) {struct fuel} : result json :=
  match fuel with
  | O => Raise RecursionError
  | S n =>
      match ref with
      | JStr r =>
          if negb (Str.startswith r "#/") then Ok (JObj [])
          else
            match walk doc (parts_of r) with
            | None => Ok (JObj [])
            | Some result => resolve_schema n doc result
            end
      | JArr _ | JObj _ => Raise TypeError
      | _ => Raise AttributeError
      end
  end

with _merge_schemas (fuel : nat) (doc : json) (target : dict) (source : json)
  {struct fuel} : result dict :=
  match fuel with
  | O => Raise RecursionError
  | S n =>
      has_props <- Py.contains "properties" source ;;
      target <-
        (if has_props then
           tp <- properties_of target ;;
           props <- Py.getitem source "properties" ;;
           resolved <- resolve_schema n doc (JObj [("properties", props)]) ;;
           resolved_props <- Py.get resolved "properties" (JObj []) ;;
           src <- Py.to_dict resolved_props ;;
           Ok (Dict.set "properties" (JObj (Dict.update tp src)) target)
         else Ok target) ;;
      has_required <- Py.contains "required" source ;;
      target <-
        (if has_required then
           existing <- required_of target ;;
           required <- Py.getitem source "required" ;;
           added <- Py.set_elems required ;;
           Ok (Dict.set "required" (JArr (set_iter (existing ++ added))) target)
         else Ok target) ;;
      copy_fields source target
  end.

End Pure.
End PureResolver.

(** [resolves doc s v]: the node [s] of [doc] resolves to [v] (with enough
    nested calls allowed). *)
Definition resolves `{PySet} (doc s v : json) : Prop :=
  exists k, PureResolver.resolve_schema k doc s = Ok v.

Definition resolves_ref `{PySet} (doc ref v : json) : Prop :=
  exists k, PureResolver.resolve_ref k doc ref = Ok v.

(** Every entry of the cache is the resolution of its reference. *)
Definition cache_pure `{PySet} (doc : json) (c : gmap string json) : Prop :=
  forall r v, c !! r = Some v -> resolves_ref doc (JStr r) v.

(** *** More allowed calls do not change a result *)

(** [m'] returns whatever [m] returns. *)
Definition extends {A : Type} (m m' : result A) : Prop :=
  forall a, m = Ok a -> m' = Ok a.

Lemma extends_refl {A : Type} (m : result A) : extends m m.
Proof. intros a Hm. exact Hm. Qed.

Lemma extends_bind {A B : Type} (m m' : result A) (k k' : A -> result B) :
  extends m m' -> (forall a, extends (k a) (k' a)) ->
  extends (bindR m k) (bindR m' k').
Proof.
  intros Hm Hk b Hrun. inv_run.
  rewrite (Hm _ Hres). simpl. apply Hk. assumption.
Qed.

Lemma extends_foldR {A B : Type} (f f' : B -> A -> result B) (l : list A) :
  (forall acc x, extends (f acc x) (f' acc x)) ->
  forall acc, extends (foldR f l acc) (foldR f' l acc).
Proof.
  intros Hf. induction l as [|x l IH]; intros acc; simpl.
  - apply extends_refl.
  - apply extends_bind; [apply Hf | exact IH].
Qed.

Lemma extends_mapR {A B : Type} (f f' : A -> result B) (l : list A) :
  (forall x, extends (f x) (f' x)) -> extends (mapR f l) (mapR f' l).
Proof.
  intros Hf. induction l as [|x l IH]; simpl.
  - apply extends_refl.
  - apply extends_bind; [apply Hf |]. intros y.
    apply extends_bind; [exact IH |]. intros ys. apply extends_refl.
Qed.

Ltac extends_step :=
  first
    [ apply extends_refl
    | apply extends_bind; [| intros ?]
    | apply extends_foldR; intros ? ?
    | apply extends_mapR; intros ?
    | match goal with
      | |- extends (if ?b then _ else _) (if ?b then _ else _) => destruct b
      | |- extends (match ?x with _ => _ end) (match ?x with _ => _ end) => destruct x
      end ].

Section PureMonotone.
Context `{PySet}.
Import PureResolver.
Variable doc : json.

Lemma pure_step (n : nat) :
  (forall s, extends (resolve_schema n doc s) (resolve_schema (S n) doc s))
  /\ (forall r, extends (resolve_ref n doc r) (resolve_ref (S n) doc r))
  /\ (forall t s, extends (_merge_schemas n doc t s) (_merge_schemas (S n) doc t s)).
Proof.
  induction n as [|n (IHs & IHr & IHm)].
  - repeat split; intros; intros a Hrun; discriminate.
  - repeat split.
    + intros s. cbn [resolve_schema].
      repeat first [apply IHs | apply IHr | apply IHm | extends_step].
    + intros r. cbn [resolve_ref].
      repeat first [apply IHs | apply IHr | apply IHm | extends_step].
    + intros t s. cbn [_merge_schemas].
      repeat first [apply IHs | apply IHr | apply IHm | extends_step].
Qed.

Lemma pure_mono (n m : nat) :
  n <= m ->
  (forall s, extends (resolve_schema n doc s) (resolve_schema m doc s))
  /\ (forall r, extends (resolve_ref n doc r) (resolve_ref m doc r))
  /\ (forall t s, extends (_merge_schemas n doc t s) (_merge_schemas m doc t s)).
Proof.
  induction 1 as [|m Hle (IHs & IHr & IHm)].
  - repeat split; intros; apply extends_refl.
  - destruct (pure_step m) as (Hs & Hr & Hm).
    repeat split; intros; intros a Hrun.
    + apply Hs, IHs, Hrun.
    + apply Hr, IHr, Hrun.
    + apply Hm, IHm, Hrun.
Qed.

Lemma resolves_deterministic (s v1 v2 : json) :
  resolves doc s v1 -> resolves doc s v2 -> v1 = v2.
Proof.
  intros [k1 H1] [k2 H2].
  destruct (pure_mono k1 (Nat.max k1 k2)) as (Hs1 & _); [lia |].
  destruct (pure_mono k2 (Nat.max k1 k2)) as (Hs2 & _); [lia |].
  apply Hs1 in H1. apply Hs2 in H2. congruence.
Qed.

End PureMonotone.

(** *** The cache does not change what is returned *)

(** A pure computation [p], indexed by the number of allowed nested calls,
    that keeps its result when more calls are allowed. *)
Definition monotone {A : Type} (p : nat -> result A) : Prop :=
  forall k k' a, k <= k' -> p k = Ok a -> p k' = Ok a.

(** A stateful run that keeps the cache sound and returns what the pure
    computation [p] returns when enough nested calls are allowed. *)
Definition tracks `{PySet} {A : Type} (doc : json) (m : ST (gmap string json) A)
  (p : nat -> result A) : Prop :=
  forall c a c', cache_pure doc c -> m c = Ok (a, c') ->
    cache_pure doc c' /\ exists k, p k = Ok a.

Lemma monotone_const {A : Type} (m : result A) : monotone (fun _ => m).
Proof. intros k k' a _ Hm. exact Hm. Qed.

Lemma monotone_bind {A B : Type} (p : nat -> result A) (q : A -> nat -> result B) :
  monotone p -> (forall a, monotone (q a)) ->
  monotone (fun k => bindR (p k) (fun a => q a k)).
Proof.
  intros Hp Hq k k' b Hle Hrun. inv_run.
  rewrite (Hp _ _ _ Hle Hres). simpl. eapply Hq; eassumption.
Qed.

Lemma monotone_mapR {A B : Type} (g : A -> nat -> result B) (l : list A) :
  (forall x, monotone (g x)) -> monotone (fun k => mapR (fun x => g x k) l).
Proof.
  intros Hg. induction l as [|x l IH]; simpl.
  - apply monotone_const.
  - apply (monotone_bind (g x)); [apply Hg |]. intros y.
    apply (monotone_bind (fun k => mapR (fun x => g x k) l)); [exact IH |].
    intros ys. apply monotone_const.
Qed.

Lemma monotone_foldR {A B : Type} (g : B -> A -> nat -> result B) (l : list A) :
  (forall acc x, monotone (g acc x)) ->
  forall acc, monotone (fun k => foldR (fun acc x => g acc x k) l acc).
Proof.
  intros Hg. induction l as [|x l IH]; intros acc; simpl.
  - apply monotone_const.
  - apply (monotone_bind (g acc x)); [apply Hg |]. exact IH.
Qed.

Section Tracking.
Context `{PySet}.
Variable doc : json.

Lemma tracks_ret {A : Type} (a : A) : tracks doc (retS a) (fun _ => Ok a).
Proof. intros c b c' Hc Hrun. inv_run. split; [assumption | exists 0; reflexivity]. Qed.

Lemma tracks_lift {A : Type} (m : result A) : tracks doc (liftS m) (fun _ => m).
Proof.
  intros c b c' Hc Hrun. inv_run.
  split; [assumption | exists 0; first [assumption | reflexivity]].
Qed.

Lemma tracks_raise {A : Type} (e : exn) : tracks doc (@raiseS _ A e) (fun _ => Raise e).
Proof. intros c b c' Hc Hrun. discriminate. Qed.

Lemma tracks_bind {A B : Type} (m : ST (gmap string json) A)
  (f : A -> ST (gmap string json) B) (p : nat -> result A) (q : A -> nat -> result B) :
  tracks doc m p -> monotone p ->
  (forall a, tracks doc (f a) (q a)) -> (forall a, monotone (q a)) ->
  tracks doc (bindS m f) (fun k => bindR (p k) (fun a => q a k)).
Proof.
  intros Hm Hp Hf Hq c b c' Hc Hrun. inv_run.
  destruct (Hm _ _ _ Hc Hrun0) as [Hc1 [k1 Hk1]].
  destruct (Hf _ _ _ _ Hc1 Hrun1) as [Hc2 [k2 Hk2]].
  split; [assumption |]. exists (Nat.max k1 k2).
  rewrite (Hp k1 _ _ (Nat.le_max_l _ _) Hk1). simpl.
  apply (Hq _ k2 _ _ (Nat.le_max_r _ _) Hk2).
Qed.

Lemma tracks_mapS {A B : Type} (f : A -> ST (gmap string json) B)
  (g : A -> nat -> result B) (l : list A) :
  (forall x, tracks doc (f x) (g x)) -> (forall x, monotone (g x)) ->
  tracks doc (mapS f l) (fun k => mapR (fun x => g x k) l).
Proof.
  intros Hf Hg. induction l as [|x l IH]; simpl.
  - apply tracks_ret.
  - apply (tracks_bind _ _ (g x)); [apply Hf | apply Hg | |].
    + intros y.
      apply (tracks_bind _ _ (fun k => mapR (fun x => g x k) l));
        [exact IH | apply monotone_mapR; exact Hg | |].
      * intros ys. apply tracks_ret.
      * intros ys. apply monotone_const.
    + intros y.
      apply (monotone_bind (fun k => mapR (fun x => g x k) l));
        [apply monotone_mapR; exact Hg |].
      intros ys. apply monotone_const.
Qed.

Lemma tracks_foldS {A B : Type} (f : B -> A -> ST (gmap string json) B)
  (g : B -> A -> nat -> result B) (l : list A) :
  (forall acc x, tracks doc (f acc x) (g acc x)) ->
  (forall acc x, monotone (g acc x)) ->
  forall acc, tracks doc (foldS f l acc) (fun k => foldR (fun acc x => g acc x k) l acc).
Proof.
  intros Hf Hg. induction l as [|x l IH]; intros acc; simpl.
  - apply tracks_ret.
  - apply (tracks_bind _ _ (g acc x)); [apply Hf | apply Hg | exact IH |].
    intros acc'. apply monotone_foldR. exact Hg.
Qed.

Lemma pure_resolve_monotone (s : json) :
  monotone (fun k => PureResolver.resolve_schema k doc s).
Proof.
  intros k k' a Hle. destruct (pure_mono doc k k' Hle) as (Hs & _). apply Hs.
Qed.

Lemma pure_ref_monotone (r : json) :
  monotone (fun k => PureResolver.resolve_ref k doc r).
Proof.
  intros k k' a Hle. destruct (pure_mono doc k k' Hle) as (_ & Hr & _). apply Hr.
Qed.

Lemma pure_merge_monotone (t : dict) (s : json) :
  monotone (fun k => PureResolver._merge_schemas k doc t s).
Proof.
  intros k k' a Hle. destruct (pure_mono doc k k' Hle) as (_ & _ & Hm). apply Hm.
Qed.

End Tracking.

Ltac monotone_step :=
  first
    [ apply pure_resolve_monotone
    | apply pure_ref_monotone
    | apply pure_merge_monotone
    | apply monotone_const
    | apply monotone_bind; [| intros ?]
    | apply monotone_mapR; intros ?
    | apply monotone_foldR; intros ? ?
    | match goal with
      | |- monotone (fun k => if ?b then _ else _) => destruct b
      | |- monotone (fun k => match ?x with _ => _ end) => destruct x
      end ].

Ltac tracks_step :=
  first
    [ apply tracks_ret
    | apply tracks_lift
    | apply tracks_raise
    | apply tracks_bind; [| | intros ? | intros ?]
    | apply tracks_mapS; [intros ? | intros ?]
    | apply tracks_foldS; [intros ? ? | intros ? ?]
    | match goal with
      | |- tracks _ (if ?b then _ else _) _ => destruct b
      | |- tracks _ (match ?x with _ => _ end) _ => destruct x
      end ].

Section Transparency.
Context `{PySet}.
Variable doc : json.

Lemma resolver_tracks (n : nat) :
  (forall s, tracks doc (OpenAPIResolver.resolve_schema n doc s)
               (fun k => PureResolver.resolve_schema k doc s))
  /\ (forall r, tracks doc (OpenAPIResolver.resolve_ref n doc r)
                  (fun k => PureResolver.resolve_ref k doc r))
  /\ (forall t s, tracks doc (OpenAPIResolver._merge_schemas n doc t s)
                    (fun k => PureResolver._merge_schemas k doc t s)).
Proof.
  induction n as [|n (IHs & IHr & IHm)].
  - split; [| split]; intros; intros ? ? ? ? Hrun; discriminate.
  - assert (Hshift : forall (A : Type) (m : ST (gmap string json) A) (p : nat -> result A),
              tracks doc m (fun k => p (S k)) -> tracks doc m p).
    { intros A m p Hm c a c' Hc Hrun.
      destruct (Hm c a c' Hc Hrun) as [Hc' [k Hk]]. split; [assumption |].
      exists (S k). exact Hk. }
    split; [| split].
    + intros s. apply Hshift.
      cbn [OpenAPIResolver.resolve_schema PureResolver.resolve_schema].
      destruct s; try apply tracks_ret.
      repeat first [apply IHs | apply IHr | apply IHm | tracks_step | monotone_step].
    + intros r. apply Hshift. cbn [OpenAPIResolver.resolve_ref PureResolver.resolve_ref].
      destruct r as [| | |r| |]; try apply tracks_raise.
      intros c v c' Hc Hrun. unfold bindS at 1, getS in Hrun.
      destruct (c !! r) as [cached|] eqn:Hcached.
      { inv_run. split; [assumption |].
        destruct (Hc _ _ Hcached) as [[|k] Hk]; [discriminate |].
        exists k. exact Hk. }
      destruct (negb (Str.startswith r "#/")) eqn:Hprefix.
      { inv_run. split; [assumption | exists 0; reflexivity]. }
      destruct (OpenAPIResolver.walk doc (OpenAPIResolver.parts_of r)) as [target|] eqn:Hwalk.
      2: { inv_run. split; [assumption | exists 0; reflexivity]. }
      inv_run.
      match goal with
      | Hsub : OpenAPIResolver.resolve_schema _ _ _ _ = Ok _ |- _ =>
          destruct (IHs _ _ _ _ Hc Hsub) as [Hc1 [k Hk]]
      end.
      split; [| exists k; exact Hk].
      intros r' v' Hr'. rewrite lookup_insert in Hr'. case_decide as Heq.
      * inversion Hr'; subst. exists (S k). cbn [PureResolver.resolve_ref].
        rewrite Hprefix, Hwalk. exact Hk.
      * apply Hc1. exact Hr'.
    + intros t s. apply Hshift.
      cbn [OpenAPIResolver._merge_schemas PureResolver._merge_schemas].
      repeat first [apply IHs | apply IHr | apply IHm | tracks_step | monotone_step].
Qed.

(** Whatever the (sound) cache, a call of [resolve_schema] that returns
    returns the resolution of the node, and leaves a sound cache. *)
Lemma resolve_schema_transparent (n : nat) (s v : json) (c c' : gmap string json) :
  cache_pure doc c ->
  OpenAPIResolver.resolve_schema n doc s c = Ok (v, c') ->
  cache_pure doc c' /\ resolves doc s v.
Proof.
  intros Hc Hrun. destruct (resolver_tracks n) as (Hs & _).
  exact (Hs s c v c' Hc Hrun).
Qed.

Lemma cache_pure_empty : cache_pure doc ∅.
Proof. intros r v Hr. rewrite lookup_empty in Hr. discriminate. Qed.

End Transparency.


(** ** Missing fields and extension fields *)

(** The properties of a schema, as a dict ([{}] when it has none). *)
Definition props_of (schema : json) : dict :=
  match schema with
  | JObj d =>
      match Dict.get "properties" d with
      | Some (JObj props) => props
      | _ => []
      end
  | _ => []
  end.

(** [field.get("type") == "object"] *)
Definition is_object (field : json) : bool :=
  match field with
  | JObj d =>
      match Dict.get "type" d with
      | Some t => Py.eq_str t "object"
      | None => false
      end
  | _ => false
  end.

(** [f] is a field of the reference schema [o] that the implementation
    schema [h] does not have, at the top or under a property that both
    declare of type [object] (section 4.3 of the specification). *)
Inductive missing_field : json -> json -> string -> Prop :=
| missing_here (o h : json) (f : string) (field : json) :
    In (f, field) (props_of o) -> Dict.mem f (props_of h) = false ->
    missing_field o h f
| missing_nested (o h : json) (g : string) (og hg : json) (f : string) :
    Dict.get g (props_of o) = Some og -> Dict.get g (props_of h) = Some hg ->
    is_object og = true -> is_object hg = true ->
    missing_field og hg f ->
    missing_field o h f.


(** The description of a field or parameter contains the extension marker. *)
Definition marked (field : json) : Prop :=
  exists description,
    Py.get field "description" (JStr "") = Ok description
    /\ Py.contains EXTENSION_MARKER description = Ok true.




Lemma props_of_items (schema props : json) (items : dict) :
  Py.get schema "properties" (JObj []) = Ok props ->
  Py.items props = Ok items ->
  props_of schema = items.
Proof.
  destruct schema as [| | | | |d]; try discriminate. simpl.
  destruct (Dict.get "properties" d) as [v|]; intros Hget Hitems; inv_run.
  - destruct props; try discriminate. simpl in Hitems. inv_run. reflexivity.
  - simpl in Hitems. inv_run. reflexivity.
Qed.

Lemma is_object_type (field t : json) :
  Py.get field "type" JNull = Ok t -> is_object field = Py.eq_str t "object".
Proof.
  destruct field as [| | | | |d]; try discriminate. simpl.
  destruct (Dict.get "type" d); intros Hget; inv_run; reflexivity.
Qed.

Lemma getitem_get (props : json) (items : dict) (k : string) (v : json) :
  Py.items props = Ok items -> Py.getitem props k = Ok v -> Dict.get k items = Some v.
Proof.
  destruct props; try discriminate. simpl. intros Hitems. inv_run.
  destruct (Dict.get k items); intros Hget; inv_run; reflexivity.
Qed.

Lemma dict_get_in {A : Type} (k : string) (d : list (string * A)) (v : A) :
  Dict.get k d = Some v -> In (k, v) d.
Proof.
  induction d as [|[k' v'] d IH]; simpl; [discriminate |].
  destruct (String.eqb k k') eqn:Heq.
  - apply String.eqb_eq in Heq. subst. intros Hv. inversion Hv. auto.
  - auto.
Qed.

Lemma dict_mem_in {A : Type} (k : string) (d : list (string * A)) :
  Dict.mem k d = true <-> In k (Dict.keys d).
Proof.
  unfold Dict.mem, Dict.keys. induction d as [|[k' v'] d IH]; simpl.
  - split; [discriminate | tauto].
  - destruct (String.eqb k k') eqn:Heq.
    + apply String.eqb_eq in Heq. subst. tauto.
    + apply String.eqb_neq in Heq. rewrite IH. split; [auto |].
      intros [Hk | Hk]; [congruence | exact Hk].
Qed.

Lemma dict_get_mem {A : Type} (k : string) (d : list (string * A)) (v : A) :
  Dict.get k d = Some v -> Dict.mem k d = true.
Proof. unfold Dict.mem. intros ->. reflexivity. Qed.

Section DifferPolicy.
Context `{PySet}.
Import ConformanceChecker.

Lemma common_field_iterated (a b : dict) (g : string) :
  Dict.mem g a = true -> Dict.mem g b = true ->
  In g (inter_iter (Dict.keys a) (Dict.keys b)).
Proof.
  intros Ha Hb. apply dict_mem_in in Ha. apply dict_mem_in in Hb.
  apply list_elem_of_In. rewrite (inter_iter_perm (Dict.keys a) (Dict.keys b)).
  apply elem_of_remove_dups, list_elem_of_filter.
  split; apply list_elem_of_In; assumption.
Qed.


End DifferPolicy.

(** ** From the differ to the report *)






(** The checker is on the documents [odoc] and [hdoc] and its two caches
    are sound. *)
Definition checker_sound `{PySet} (odoc hdoc : json) (self : ConformanceChecker.t) : Prop :=
  ConformanceChecker.openai_spec self = odoc
  /\ ConformanceChecker.hadrian_spec self = hdoc
  /\ OpenAPIResolver.spec (ConformanceChecker.openai_resolver self) = odoc
  /\ OpenAPIResolver.spec (ConformanceChecker.hadrian_resolver self) = hdoc
  /\ cache_pure odoc (OpenAPIResolver._cache (ConformanceChecker.openai_resolver self))
  /\ cache_pure hdoc (OpenAPIResolver._cache (ConformanceChecker.hadrian_resolver self)).


Section ReportPolicy.
Context `{PySet}.
Import ConformanceChecker.
Variables odoc hdoc : json.


Lemma openai_resolve_sound (fuel : nat) (schema v : json) (self self' : ConformanceChecker.t) :
  checker_sound odoc hdoc self ->
  openai_resolve fuel schema self = Ok (v, self') ->
  checker_sound odoc hdoc self' /\ resolves odoc schema v.
Proof.
  intros Hsound Hrun.
  unfold openai_resolve, resolve_schema_of in Hrun.
  destruct (OpenAPIResolver.resolve_schema fuel
              (OpenAPIResolver.spec (openai_resolver self)) schema
              (OpenAPIResolver._cache (openai_resolver self)))
    as [[v0 c0]|e] eqn:Hres; [| discriminate].
  inversion Hrun; subst v0 self'. clear Hrun.
  destruct Hsound as (Ho & Hh & Hro & Hrh & Hco & Hch).
  rewrite Hro in Hres.
  destruct (resolve_schema_transparent odoc _ _ _ _ _ Hco Hres) as [Hc0 Hv].
  split; [| exact Hv]. unfold checker_sound. simpl. auto 10.
Qed.

Lemma hadrian_resolve_sound (fuel : nat) (schema v : json) (self self' : ConformanceChecker.t) :
  checker_sound odoc hdoc self ->
  hadrian_resolve fuel schema self = Ok (v, self') ->
  checker_sound odoc hdoc self' /\ resolves hdoc schema v.
Proof.
  intros Hsound Hrun.
  unfold hadrian_resolve, resolve_schema_of in Hrun.
  destruct (OpenAPIResolver.resolve_schema fuel
              (OpenAPIResolver.spec (hadrian_resolver self)) schema
              (OpenAPIResolver._cache (hadrian_resolver self)))
    as [[v0 c0]|e] eqn:Hres; [| discriminate].
  inversion Hrun; subst v0 self'. clear Hrun.
  destruct Hsound as (Ho & Hh & Hro & Hrh & Hco & Hch).
  rewrite Hrh in Hres.
  destruct (resolve_schema_transparent hdoc _ _ _ _ _ Hch Hres) as [Hc0 Hv].
  split; [| exact Hv]. unfold checker_sound. simpl. auto 10.
Qed.



End ReportPolicy.

Section ReportNoViolation.
Context `{PySet}.
Import ConformanceChecker.
Variables odoc hdoc : json.



Lemma check_hadrian_only_violations (openai_paths : dict) (report : ConformanceReport.t)
  (hadrian_path : json) (report' : ConformanceReport.t) :
  check_hadrian_only openai_paths report hadrian_path = Ok report' ->
  R.violations report' = R.violations report.
Proof.
  unfold check_hadrian_only. intros Hrun.
  repeat (first [progress inv_run | split_run]); reflexivity.
Qed.


End ReportNoViolation.

(** ** Zero violations *)

(** [hadrian_paths.get(hadrian_path, {})] for the counterpart of a reference
    path. *)
Definition hadrian_methods_of (hadrian_paths : dict) (openai_path : string) : json :=
  match Dict.get (ConformanceChecker.hadrian_path_of openai_path) hadrian_paths with
  | Some methods => methods
  | None => JObj []
  end.

(** [method] of the reference path [path], with operations [methods], is in
    scope: the path is not out of scope, the method is one of the five the
    check goes through, the path has it, and it is not excluded for the path. *)
Definition in_scope (openai_paths : dict) (path : string) (methods : json)
  (method : string) : Prop :=
  In (path, methods) openai_paths
  /\ ConformanceChecker._is_out_of_scope path = false
  /\ In method ConformanceChecker.METHODS
  /\ Py.contains method methods = Ok true
  /\ ConformanceChecker._is_method_out_of_scope path method = false.


(** The in-scope endpoint has the operation [openai_op] in the reference and
    [hadrian_op] in the implementation. *)
Definition compared (openai_paths hadrian_paths : dict) (path method : string)
  (openai_op hadrian_op : json) : Prop :=
  exists methods,
    in_scope openai_paths path methods method
    /\ Py.getitem methods method = Ok openai_op
    /\ Py.getitem (hadrian_methods_of hadrian_paths path) method = Ok hadrian_op.

(** The two operations both have a (truthy) body schema at [location], and
    these resolve to [ro] and [rh]. *)
Inductive compared_schemas `{PySet} (odoc hdoc openai_op hadrian_op : json)
  : string -> json -> json -> Prop :=
| compared_request (ob hb ro rh : json) :
    ConformanceChecker.request_body_schema openai_op = Ok ob ->
    ConformanceChecker.request_body_schema hadrian_op = Ok hb ->
    Py.truthy ob = true -> Py.truthy hb = true ->
    resolves odoc ob ro -> resolves hdoc hb rh ->
    compared_schemas odoc hdoc openai_op hadrian_op "request" ro rh
| compared_response (ob hb ro rh : json) :
    ConformanceChecker.response_body_schema openai_op = Ok ob ->
    ConformanceChecker.response_body_schema hadrian_op = Ok hb ->
    Py.truthy ob = true -> Py.truthy hb = true ->
    resolves odoc ob ro -> resolves hdoc hb rh ->
    compared_schemas odoc hdoc openai_op hadrian_op "response" ro rh.




Section ZeroViolations.
Context `{PySet}.
Import ConformanceChecker.

Lemma init_sound (odoc hdoc : json) (verbose : bool) (self : ConformanceChecker.t) :
  init odoc hdoc verbose = Ok self -> checker_sound odoc hdoc self.
Proof.
  unfold init, OpenAPIResolver.init. intros Hinit. inv_run.
  unfold checker_sound. cbn. repeat split; try reflexivity; apply cache_pure_empty.
Qed.



End ZeroViolations.


(** ** Missing fields surface in the report *)

(** [v] is the undocumented-missing violation of [(path, method, location,
    field)]. *)
Definition undocumented_missing_at (path method location field : string)
  (v : Violation.t) : Prop :=
  Violation.violation_type v = "undocumented_missing"
  /\ Violation.path v = path /\ Violation.method v = method
  /\ Violation.location v = location /\ Violation.field v = field.

(** [d] is a missing-in-target diff of the field. *)
Definition missing_diff_of (field : string) (d : SchemaDiff.t) : Prop :=
  SchemaDiff.diff_type d = MISSING_IN_HADRIAN /\ SchemaDiff.field d = field.

(** What a pair of lists of diffs and violations has for a missing field of
    [(path, method, location)]: a diff, and a violation when the field is
    not documented. *)
Definition surfaces_in (path method location field : string)
  (found : ConformanceChecker.findings) : Prop :=
  (exists d, In d (fst found) /\ missing_diff_of field d)
  /\ (documented (path, method, location, field) = false ->
      exists v, In v (snd found) /\ undocumented_missing_at path method location field v).

(** Every undocumented-missing violation of the list is about a key that is
    not in the table. *)
Definition only_undocumented (vs : list Violation.t) : Prop :=
  forall v, In v vs ->
    Violation.violation_type v = "undocumented_missing" ->
    documented (Violation.path v, Violation.method v,
                Violation.location v, Violation.field v) = false.

(** Every missing-in-target diff of the pair whose key is not in the table
    has its undocumented-missing violation in the pair. *)
Definition diffs_covered (path method location : string)
  (found : ConformanceChecker.findings) : Prop :=
  forall d, In d (fst found) ->
    SchemaDiff.diff_type d = MISSING_IN_HADRIAN ->
    documented (path, method, location, SchemaDiff.field d) = false ->
    exists v, In v (snd found)
              /\ undocumented_missing_at path method location (SchemaDiff.field d) v.

(** The second pair has everything the first has. *)
Definition grows (acc acc' : ConformanceChecker.findings) : Prop :=
  incl (fst acc) (fst acc') /\ incl (snd acc) (snd acc').

Lemma grows_refl (acc : ConformanceChecker.findings) : grows acc acc.
Proof. split; apply incl_refl. Qed.

Lemma grows_surfaces (path method location field : string)
  (acc acc' : ConformanceChecker.findings) :
  grows acc acc' -> surfaces_in path method location field acc ->
  surfaces_in path method location field acc'.
Proof.
  intros [Hd Hv] [[d [Hin Hmiss]] Hviol]. split.
  - exists d. split; [apply Hd; exact Hin | exact Hmiss].
  - intros Hdoc. destruct (Hviol Hdoc) as [v [Hvin Hat]].
    exists v. split; [apply Hv; exact Hvin | exact Hat].
Qed.

Lemma only_undocumented_app (vs ws : list Violation.t) :
  only_undocumented vs -> only_undocumented ws -> only_undocumented (vs ++ ws).
Proof.
  intros Hvs Hws v Hin. apply in_app_or in Hin as [Hin | Hin]; auto.
Qed.

Lemma only_undocumented_nil : only_undocumented [].
Proof. intros v []. Qed.

Lemma diffs_covered_nil (path method location : string) :
  diffs_covered path method location ([], []).
Proof. intros d []. Qed.

(** Adding diffs of other kinds, and any violations, keeps the diffs
    covered. *)
Lemma diffs_covered_other (path method location : string)
  (acc : ConformanceChecker.findings) (ds : list SchemaDiff.t) (vs : list Violation.t) :
  (forall d, In d ds -> In d (fst acc) \/ SchemaDiff.diff_type d <> MISSING_IN_HADRIAN) ->
  incl (snd acc) vs ->
  diffs_covered path method location acc ->
  diffs_covered path method location (ds, vs).
Proof.
  intros Hds Hvs Hacc d Hin Htype Hdoc. cbn [fst snd] in *.
  destruct (Hds d Hin) as [Hold | Hother]; [| contradiction].
  destruct (Hacc d Hold Htype Hdoc) as [v [Hv Hat]].
  exists v. split; [apply Hvs; exact Hv | exact Hat].
Qed.

Lemma diffs_covered_app (path method location : string)
  (acc nested : ConformanceChecker.findings) :
  diffs_covered path method location acc ->
  diffs_covered path method location nested ->
  diffs_covered path method location (fst acc ++ fst nested, snd acc ++ snd nested).
Proof.
  intros Hacc Hnested d Hin Htype Hdoc. cbn [fst snd] in *.
  apply in_app_or in Hin as [Hin | Hin].
  - destruct (Hacc d Hin Htype Hdoc) as [v [Hv Hat]].
    exists v. split; [apply in_or_app; left; exact Hv | exact Hat].
  - destruct (Hnested d Hin Htype Hdoc) as [v [Hv Hat]].
    exists v. split; [apply in_or_app; right; exact Hv | exact Hat].
Qed.

(** The diff and, when the key is not in the table, the violation that the
    two loops over the reference's fields and parameters add. *)
Lemma diffs_covered_missing (path method location : string)
  (acc : ConformanceChecker.findings) (d : SchemaDiff.t) (v : Violation.t) :
  undocumented_missing_at path method location (SchemaDiff.field d) v ->
  diffs_covered path method location acc ->
  diffs_covered path method location (fst acc ++ [d], snd acc ++ [v]).
Proof.
  intros Hat Hacc.
  apply (diffs_covered_app path method location acc ([d], [v])); [exact Hacc |].
  intros d' [<- | []] _ _. exists v. split; [left; reflexivity | exact Hat].
Qed.

Lemma diffs_covered_documented (path method location : string)
  (acc : ConformanceChecker.findings) (d : SchemaDiff.t) :
  documented (path, method, location, SchemaDiff.field d) = true ->
  diffs_covered path method location acc ->
  diffs_covered path method location (fst acc ++ [d], snd acc).
Proof.
  intros Hdoc Hacc d' Hin Htype Hundoc. cbn [fst snd] in *.
  apply in_app_or in Hin as [Hin | [<- | []]].
  - apply (Hacc d' Hin Htype Hundoc).
  - congruence.
Qed.

(** A turn of a loop that is reached returns an accumulator that satisfies
    [P], and the turns after it keep [P]. *)
Lemma foldR_reaches {A B : Type} (P : B -> Prop) (f : B -> A -> result B)
  (l : list A) (x0 : A) :
  In x0 l ->
  (forall acc x acc', f acc x = Ok acc' -> P acc -> P acc') ->
  (forall acc acc', f acc x0 = Ok acc' -> P acc') ->
  forall acc acc', foldR f l acc = Ok acc' -> P acc'.
Proof.
  intros Hin Hkeep Hhit. induction l as [|x l IH]; [destruct Hin |].
  intros acc acc' Hrun. simpl in Hrun. inv_run.
  destruct Hin as [-> | Hin].
  - eapply (foldR_acc_invariant P); [| | eassumption].
    + intros ? ? ? HP Hstep. eapply Hkeep; eassumption.
    + eapply Hhit. eassumption.
  - eapply IH; eassumption.
Qed.

Section DifferSurface.
Context `{PySet}.
Import ConformanceChecker.

(** The three loops of [_compare_schemas], with what a turn of each does
    to the two lists. *)
Lemma compare_schemas_loops (n : nat) (o h : json)
  (context endpoint_path method location : string) (found : findings) :
  _compare_schemas (S n) o h context endpoint_path method location = Ok found ->
  exists (step1 step2 : findings -> string * json -> result findings)
         (step3 : findings -> string -> result findings) (r1 r2 : findings),
    foldR step1 (props_of o) ([], []) = Ok r1
    /\ foldR step2 (props_of h) r1 = Ok r2
    /\ foldR step3 (inter_iter (Dict.keys (props_of o)) (Dict.keys (props_of h))) r2
       = Ok found
    /\ (forall acc kv acc', step1 acc kv = Ok acc' ->
          grows acc acc'
          /\ (Dict.mem (fst kv) (props_of h) = false ->
              surfaces_in endpoint_path method location (fst kv) acc')
          /\ (only_undocumented (snd acc) -> only_undocumented (snd acc'))
          /\ (diffs_covered endpoint_path method location acc ->
              diffs_covered endpoint_path method location acc'))
    /\ (forall acc kv acc', step2 acc kv = Ok acc' ->
          grows acc acc'
          /\ (only_undocumented (snd acc) -> only_undocumented (snd acc'))
          /\ (diffs_covered endpoint_path method location acc ->
              diffs_covered endpoint_path method location acc'))
    /\ (forall acc g acc', step3 acc g = Ok acc' ->
          exists og hg ds,
            Dict.get g (props_of o) = Some og /\ Dict.get g (props_of h) = Some hg
            /\ incl (fst acc) ds
            /\ (forall d, In d ds ->
                  In d (fst acc) \/ SchemaDiff.diff_type d <> MISSING_IN_HADRIAN)
            /\ ((is_object og && is_object hg = false /\ acc' = (ds, snd acc))
                \/ (is_object og = true /\ is_object hg = true
                    /\ exists nested,
                         _compare_schemas n og hg (context +:+ "." +:+ g)
                           endpoint_path method location = Ok nested
                         /\ acc' = (ds ++ fst nested, snd acc ++ snd nested)))).
Proof.
  intros Hrun. cbn [_compare_schemas] in Hrun. inv_run.
  match goal with
  | Ho : Py.get o "properties" _ = Ok ?op, Hoi : Py.items ?op = Ok ?oi,
    Hh : Py.get h "properties" _ = Ok ?hp, Hhi : Py.items ?hp = Ok ?hi |- _ =>
      pose proof (props_of_items _ _ _ Ho Hoi) as Hoprops;
      pose proof (props_of_items _ _ _ Hh Hhi) as Hhprops;
      rename oi into oitems; rename hi into hitems;
      rename op into oprops; rename hp into hprops;
      rename Hoi into Hoitems; rename Hhi into Hhitems
  end.
  assert (Hhp : hprops = JObj hitems).
  { destruct hprops; try discriminate. simpl in Hhitems. inv_run. reflexivity. }
  subst hprops. subst oitems. subst hitems.
  do 5 eexists. split; [eassumption |]. split; [eassumption |]. split; [eassumption |].
  split; [| split].
  - intros acc [f field] acc' Hstep. cbn [fst snd] in Hstep |- *. inv_run.
    match goal with
    | Hc : Py.contains f (JObj (props_of h)) = Ok ?b |- _ => simpl in Hc; inv_run
    end.
    destruct (Dict.mem f (props_of h)) eqn:Hmem.
    { inv_run. split; [apply grows_refl |]. split; [intros Hx; discriminate Hx | auto]. }
    inv_run.
    destruct (documented (endpoint_path, method, location, f)) eqn:Hdoc; inv_run;
      cbn [fst snd].
    + split; [split; cbn [fst snd]; [apply incl_appl |]; apply incl_refl |].
      split; [| split; [auto |]].
      * intros _. split.
        -- eexists. split; [apply in_or_app; right; left; reflexivity |].
           split; reflexivity.
        -- intros Hx. congruence.
      * apply diffs_covered_documented. exact Hdoc.
    + split; [split; cbn [fst snd]; apply incl_appl; apply incl_refl |].
      split; [| split].
      * intros _. split.
        -- eexists. split; [apply in_or_app; right; left; reflexivity |].
           split; reflexivity.
        -- intros _. eexists. split; [apply in_or_app; right; left; reflexivity |].
           repeat split.
      * intros Hacc. apply only_undocumented_app; [exact Hacc |].
        intros v [<- | []] _. exact Hdoc.
      * apply diffs_covered_missing. repeat split.
  - intros acc [f field] acc' Hstep. cbn [fst snd] in Hstep |- *.
    destruct (Dict.mem f (props_of o)) eqn:Hmem.
    { inv_run. split; [apply grows_refl | auto]. }
    inv_run.
    match goal with
    | Hm : Py.contains EXTENSION_MARKER _ = Ok ?b |- _ => destruct b
    end; inv_run; cbn [fst snd].
    + split; [split; cbn [fst snd]; [apply incl_appl |]; apply incl_refl |].
      split; [auto |].
      apply diffs_covered_other; [| apply incl_refl].
      intros d Hd. apply in_app_or in Hd as [Hd | [<- | []]]; [left; exact Hd |].
      right. discriminate.
    + split; [split; cbn [fst snd]; apply incl_appl; apply incl_refl |].
      split.
      * intros Hacc. apply only_undocumented_app; [exact Hacc |].
        intros v [<- | []] Htype. discriminate Htype.
      * apply diffs_covered_other; [| apply incl_appl, incl_refl].
        intros d Hd. apply in_app_or in Hd as [Hd | [<- | []]]; [left; exact Hd |].
        right. discriminate.
  - intros acc g acc' Hstep. inv_run.
    match goal with
    | Hog : Py.getitem oprops g = Ok ?og, Hhg : Py.getitem (JObj _) g = Ok ?hg |- _ =>
        pose proof (getitem_get _ _ _ _ Hoitems Hog) as Hgo;
        pose proof (getitem_get _ _ _ _ Hhitems Hhg) as Hgh;
        exists og, hg; rename og into og0; rename hg into hg0
    end.
    assert (Hds : forall (b c : bool) (x y : SchemaDiff.t),
              SchemaDiff.diff_type x <> MISSING_IN_HADRIAN ->
              SchemaDiff.diff_type y <> MISSING_IN_HADRIAN ->
              let ds := if b then (if c then fst acc else fst acc ++ [x]) ++ [y]
                        else if c then fst acc else fst acc ++ [x] in
              incl (fst acc) ds
              /\ forall d, In d ds ->
                   In d (fst acc) \/ SchemaDiff.diff_type d <> MISSING_IN_HADRIAN).
    { intros b c x y Hx Hy. cbn zeta. split.
      - destruct b, c; repeat apply incl_appl; apply incl_refl.
      - intros d Hd.
        destruct b, c; repeat (apply in_app_or in Hd as [Hd | [<- | []]]); auto. }
    match goal with
    | Hrest : context [if ?b then (if ?c then _ else _ ++ [?x]) ++ [?y] else _] |- _ =>
        destruct (Hds b c x y ltac:(discriminate) ltac:(discriminate)) as [Hincl Hkinds]
    end.
    eexists. split; [exact Hgo |]. split; [exact Hgh |].
    split; [exact Hincl |]. split; [exact Hkinds |].
    match goal with
    | Ht : Py.get og0 "type" JNull = Ok ?t |- _ =>
        pose proof (is_object_type _ _ Ht) as Hobj; destruct (Py.eq_str t "object")
    end.
    2: { inv_run. left. rewrite Hobj. split; reflexivity. }
    inv_run.
    match goal with
    | Ht : Py.get hg0 "type" JNull = Ok ?t |- _ =>
        pose proof (is_object_type _ _ Ht) as Hobjh; destruct (Py.eq_str t "object")
    end.
    2: { inv_run. left. rewrite Hobj, Hobjh. split; reflexivity. }
    inv_run. right. split; [exact Hobj |]. split; [exact Hobjh |].
    eexists. split; [eassumption |]. reflexivity.
Qed.

End DifferSurface.

Section DifferMissing.
Context `{PySet}.
Import ConformanceChecker.

(** Every missing field of the two schemas has a missing-in-target diff in
    what [_compare_schemas] returns, and an undocumented-missing violation
    when it is not in the table; the undocumented-missing violations
    returned are about fields that are not in the table; and every
    missing-in-target diff returned has its violation when its field is not
    in the table. *)
Lemma compare_schemas_missing (n : nat) :
  forall o h context endpoint_path method location found,
    _compare_schemas n o h context endpoint_path method location = Ok found ->
    (forall f, missing_field o h f ->
       surfaces_in endpoint_path method location f found)
    /\ only_undocumented (snd found)
    /\ diffs_covered endpoint_path method location found.
Proof.
  induction n as [|n IH]; intros o h ctx p m loc found Hrun; [discriminate |].
  destruct (compare_schemas_loops _ _ _ _ _ _ _ _ Hrun)
    as (step1 & step2 & step3 & r1 & r2 & Hloop1 & Hloop2 & Hloop3
        & Hstep1 & Hstep2 & Hstep3).
  assert (Hgrows3 : forall acc g acc', step3 acc g = Ok acc' -> grows acc acc').
  { intros acc g acc' Hstep.
    destruct (Hstep3 _ _ _ Hstep)
      as (og & hg & ds & _ & _ & Hds & _ & [(_ & ->) | (_ & _ & nested & _ & ->)]);
      split; cbn [fst snd]; try apply incl_refl; try exact Hds.
    - apply incl_appl. exact Hds.
    - apply incl_appl, incl_refl. }
  split; [| split].
  - intros f Hf.
    inversion Hf as [? ? ? field Hin Hmem | ? ? g og hg ? Hog Hhg Ho Hh Hsub]; subst.
    + (* found by the first loop, kept by the other two *)
      eapply (foldR_acc_invariant (surfaces_in p m loc f)); [| | exact Hloop3].
      { intros ? ? ? Hacc Hstep. eapply grows_surfaces; [| exact Hacc].
        eapply Hgrows3; eassumption. }
      eapply (foldR_acc_invariant (surfaces_in p m loc f)); [| | exact Hloop2].
      { intros ? ? ? Hacc Hstep. eapply grows_surfaces; [| exact Hacc].
        apply (Hstep2 _ _ _ Hstep). }
      eapply (foldR_reaches (surfaces_in p m loc f)); [exact Hin | | | exact Hloop1].
      { intros ? ? ? Hstep Hacc. eapply grows_surfaces; [| exact Hacc].
        apply (Hstep1 _ _ _ Hstep). }
      intros acc acc' Hstep. apply (Hstep1 _ _ _ Hstep). exact Hmem.
    + (* found by the nested call of the third loop *)
      assert (Hg : In g (inter_iter (Dict.keys (props_of o)) (Dict.keys (props_of h))))
        by (apply common_field_iterated; eapply dict_get_mem; eassumption).
      eapply (foldR_reaches (surfaces_in p m loc f)); [exact Hg | | | exact Hloop3].
      { intros ? ? ? Hstep Hacc. eapply grows_surfaces; [| exact Hacc].
        eapply Hgrows3; eassumption. }
      intros acc acc' Hstep.
      destruct (Hstep3 _ _ _ Hstep) as (og' & hg' & ds & Hog' & Hhg' & _ & _ & Hcases).
      assert (og' = og) by congruence. assert (hg' = hg) by congruence. subst og' hg'.
      destruct Hcases as [(Hnot & _) | (_ & _ & nested & Hnested & ->)].
      { rewrite Ho, Hh in Hnot. discriminate Hnot. }
      destruct (IH _ _ _ _ _ _ _ Hnested) as [Hsurf _].
      eapply grows_surfaces; [| apply Hsurf; exact Hsub].
      split; cbn [fst snd]; apply incl_appr, incl_refl.
  - eapply (foldR_acc_invariant (fun acc : findings => only_undocumented (snd acc)));
      [| | exact Hloop3].
    { intros acc g acc' Hacc Hstep.
      destruct (Hstep3 _ _ _ Hstep)
        as (og & hg & ds & _ & _ & _ & _ & [(_ & ->) | (_ & _ & nested & Hnested & ->)]);
        [exact Hacc |].
      cbn [snd]. apply only_undocumented_app; [exact Hacc |].
      apply (IH _ _ _ _ _ _ _ Hnested). }
    eapply (foldR_acc_invariant (fun acc : findings => only_undocumented (snd acc)));
      [| | exact Hloop2].
    { intros acc kv acc' Hacc Hstep. apply (Hstep2 _ _ _ Hstep). exact Hacc. }
    eapply (foldR_acc_invariant (fun acc : findings => only_undocumented (snd acc)));
      [| | exact Hloop1].
    { intros acc kv acc' Hacc Hstep. apply (Hstep1 _ _ _ Hstep). exact Hacc. }
    apply only_undocumented_nil.
  - eapply (foldR_acc_invariant (diffs_covered p m loc)); [| | exact Hloop3].
    { intros acc g acc' Hacc Hstep.
      destruct (Hstep3 _ _ _ Hstep)
        as (og & hg & ds & _ & _ & _ & Hkinds
            & [(_ & ->) | (_ & _ & nested & Hnested & ->)]).
      - eapply diffs_covered_other; [exact Hkinds | apply incl_refl | exact Hacc].
      - apply (diffs_covered_app p m loc (ds, snd acc) nested).
        + eapply diffs_covered_other; [exact Hkinds | apply incl_refl | exact Hacc].
        + apply (IH _ _ _ _ _ _ _ Hnested). }
    eapply (foldR_acc_invariant (diffs_covered p m loc)); [| | exact Hloop2].
    { intros acc kv acc' Hacc Hstep. apply (Hstep2 _ _ _ Hstep). exact Hacc. }
    eapply (foldR_acc_invariant (diffs_covered p m loc)); [| | exact Hloop1].
    { intros acc kv acc' Hacc Hstep. apply (Hstep1 _ _ _ Hstep). exact Hacc. }
    apply diffs_covered_nil.
Qed.

End DifferMissing.

(** A field of a body schema, or a query parameter, that the reference
    operation has and the implementation operation lacks, with the location
    the checker files it under. *)
Inductive missing_at `{PySet} (odoc hdoc openai_op hadrian_op : json)
  : string -> string -> Prop :=
| missing_body_field (location : string) (ro rh : json) (f : string) :
    compared_schemas odoc hdoc openai_op hadrian_op location ro rh ->
    missing_field ro rh f ->
    missing_at odoc hdoc openai_op hadrian_op location f
| missing_query_param (openai_params hadrian_params : dict) (name : string)
    (param : json) :
    ConformanceChecker.query_params openai_op = Ok openai_params ->
    ConformanceChecker.query_params hadrian_op = Ok hadrian_params ->
    In (name, param) openai_params -> Dict.mem name hadrian_params = false ->
    missing_at odoc hdoc openai_op hadrian_op "param" name.

(** The diff list of an endpoint for a location. *)
Definition diffs_at (location : string) (ed : EndpointDiff.t) : list SchemaDiff.t :=
  if String.eqb location "request" then EndpointDiff.request_diffs ed
  else if String.eqb location "response" then EndpointDiff.response_diffs ed
  else if String.eqb location "param" then EndpointDiff.param_diffs ed
  else [].

Section EndpointMissing.
Context `{PySet}.
Import ConformanceChecker.
Variables odoc hdoc : json.

Lemma compare_params_missing (path method_upper : string)
  (openai_op hadrian_op : json) (found : findings) :
  compare_params path method_upper openai_op hadrian_op = Ok found ->
  (forall openai_params hadrian_params name param,
     query_params openai_op = Ok openai_params ->
     query_params hadrian_op = Ok hadrian_params ->
     In (name, param) openai_params -> Dict.mem name hadrian_params = false ->
     surfaces_in path method_upper "param" name found)
  /\ only_undocumented (snd found)
  /\ diffs_covered path method_upper "param" found.
Proof.
  unfold compare_params. intros Hrun. inv_run.
  match goal with
  | Ho : query_params openai_op = Ok ?op, Hh : query_params hadrian_op = Ok ?hp |- _ =>
      rename op into oparams; rename hp into hparams;
      rename Ho into Hoparams; rename Hh into Hhparams
  end.
  match goal with
  | H1 : foldR _ oparams ([], []) = Ok ?r1, H2 : foldR _ hparams ?r1 = Ok found |- _ =>
      rename H1 into Hloop1; rename H2 into Hloop2
  end.
  match type of Hloop1 with
  | foldR ?f1 _ _ = _ =>
  match type of Hloop2 with
  | foldR ?f2 _ _ = _ =>
      assert (Hstep1 : forall acc kv acc', f1 acc kv = Ok acc' ->
                grows acc acc'
                /\ (Dict.mem (fst kv) hparams = false ->
                    surfaces_in path method_upper "param" (fst kv) acc')
                /\ (only_undocumented (snd acc) -> only_undocumented (snd acc'))
                /\ (diffs_covered path method_upper "param" acc ->
                    diffs_covered path method_upper "param" acc'));
      [| assert (Hstep2 : forall acc kv acc', f2 acc kv = Ok acc' ->
                   grows acc acc'
                   /\ (only_undocumented (snd acc) -> only_undocumented (snd acc'))
                   /\ (diffs_covered path method_upper "param" acc ->
                       diffs_covered path method_upper "param" acc'))]
  end end.
  - intros acc [name param] acc' Hstep. cbn [fst snd] in Hstep |- *.
    destruct (Dict.mem name hparams) eqn:Hmem.
    { inv_run. split; [apply grows_refl |]. split; [intros Hx; discriminate Hx | auto]. }
    inv_run.
    destruct (documented (path, method_upper, "param", name)) eqn:Hdoc; inv_run;
      cbn [fst snd].
    + split; [split; cbn [fst snd]; [apply incl_appl |]; apply incl_refl |].
      split; [| split; [auto |]].
      * intros _. split.
        -- eexists. split; [apply in_or_app; right; left; reflexivity |].
           split; reflexivity.
        -- intros Hx. congruence.
      * apply diffs_covered_documented. exact Hdoc.
    + split; [split; cbn [fst snd]; apply incl_appl; apply incl_refl |].
      split; [| split].
      * intros _. split.
        -- eexists. split; [apply in_or_app; right; left; reflexivity |].
           split; reflexivity.
        -- intros _. eexists. split; [apply in_or_app; right; left; reflexivity |].
           repeat split.
      * intros Hacc. apply only_undocumented_app; [exact Hacc |].
        intros v [<- | []] _. exact Hdoc.
      * apply diffs_covered_missing. repeat split.
  - intros acc [name param] acc' Hstep. cbn [fst snd] in Hstep |- *.
    destruct (Dict.mem name oparams) eqn:Hmem.
    { inv_run. split; [apply grows_refl | auto]. }
    inv_run.
    match goal with
    | Hm : Py.contains EXTENSION_MARKER _ = Ok ?b |- _ => destruct b
    end; inv_run; cbn [fst snd].
    + split; [split; cbn [fst snd]; [apply incl_appl |]; apply incl_refl |].
      split; [auto |].
      apply diffs_covered_other; [| apply incl_refl].
      intros d Hd. apply in_app_or in Hd as [Hd | [<- | []]]; [left; exact Hd |].
      right. discriminate.
    + split; [split; cbn [fst snd]; apply incl_appl; apply incl_refl |].
      split.
      * intros Hacc. apply only_undocumented_app; [exact Hacc |].
        intros v [<- | []] Htype. discriminate Htype.
      * apply diffs_covered_other; [| apply incl_appl, incl_refl].
        intros d Hd. apply in_app_or in Hd as [Hd | [<- | []]]; [left; exact Hd |].
        right. discriminate.
  - split; [| split].
    + intros op hp name param Hop Hhp Hin Hmem.
      assert (op = oparams) by congruence. assert (hp = hparams) by congruence.
      subst op hp.
      eapply (foldR_acc_invariant (surfaces_in path method_upper "param" name));
        [| | exact Hloop2].
      { intros ? ? ? Hacc Hstep. eapply grows_surfaces; [| exact Hacc].
        apply (Hstep2 _ _ _ Hstep). }
      eapply (foldR_reaches (surfaces_in path method_upper "param" name));
        [exact Hin | | | exact Hloop1].
      { intros ? ? ? Hstep Hacc. eapply grows_surfaces; [| exact Hacc].
        apply (Hstep1 _ _ _ Hstep). }
      intros acc acc' Hstep. apply (Hstep1 _ _ _ Hstep). exact Hmem.
    + eapply (foldR_acc_invariant (fun acc : findings => only_undocumented (snd acc)));
        [| | exact Hloop2].
      { intros acc kv acc' Hacc Hstep. apply (Hstep2 _ _ _ Hstep). exact Hacc. }
      eapply (foldR_acc_invariant (fun acc : findings => only_undocumented (snd acc)));
        [| | exact Hloop1].
      { intros acc kv acc' Hacc Hstep. apply (Hstep1 _ _ _ Hstep). exact Hacc. }
      apply only_undocumented_nil.
    + eapply (foldR_acc_invariant (diffs_covered path method_upper "param"));
        [| | exact Hloop2].
      { intros acc kv acc' Hacc Hstep. apply (Hstep2 _ _ _ Hstep). exact Hacc. }
      eapply (foldR_acc_invariant (diffs_covered path method_upper "param"));
        [| | exact Hloop1].
      { intros acc kv acc' Hacc Hstep. apply (Hstep1 _ _ _ Hstep). exact Hacc. }
      apply diffs_covered_nil.
Qed.

Lemma compare_body_missing (fuel : nat) (path method_upper location : string)
  (openai_body hadrian_body : json) (self self' : ConformanceChecker.t)
  (found : findings) :
  checker_sound odoc hdoc self ->
  compare_body fuel path method_upper location openai_body hadrian_body self
    = Ok (found, self') ->
  checker_sound odoc hdoc self'
  /\ (Py.truthy openai_body = true -> Py.truthy hadrian_body = true ->
      forall ro rh, resolves odoc openai_body ro -> resolves hdoc hadrian_body rh ->
      forall f, missing_field ro rh f ->
        surfaces_in path method_upper location f found)
  /\ only_undocumented (snd found)
  /\ diffs_covered path method_upper location found.
Proof.
  unfold compare_body. intros Hsound Hrun.
  destruct (Py.truthy openai_body) eqn:Ho; destruct (Py.truthy hadrian_body) eqn:Hh;
    cbn [andb] in Hrun;
    try (inv_run; split; [assumption |]; cbn [snd];
         split; [intros; discriminate |];
         split; [apply only_undocumented_nil | apply diffs_covered_nil]).
  inv_run.
  match goal with
  | H1 : openai_resolve _ _ _ = Ok _, H2 : hadrian_resolve _ _ _ = Ok _,
    H3 : _compare_schemas _ _ _ _ _ _ _ = Ok _ |- _ =>
      destruct (openai_resolve_sound _ _ _ _ _ _ _ Hsound H1) as [Hsound1 Hro];
      destruct (hadrian_resolve_sound _ _ _ _ _ _ _ Hsound1 H2) as [Hsound2 Hrh];
      destruct (compare_schemas_missing _ _ _ _ _ _ _ _ H3) as (Hsurf & Honly & Hcovered)
  end.
  split; [assumption |]. split; [| split; [exact Honly | exact Hcovered]].
  intros _ _ ro rh Hro' Hrh' f Hf.
  rewrite (resolves_deterministic odoc _ _ _ Hro' Hro) in Hf.
  rewrite (resolves_deterministic hdoc _ _ _ Hrh' Hrh) in Hf.
  apply Hsurf. exact Hf.
Qed.

Lemma surfaces_in_part (path method location field : string)
  (ds ds' : list SchemaDiff.t) (vs vs' : list Violation.t) :
  incl ds ds' -> incl vs vs' ->
  surfaces_in path method location field (ds, vs) ->
  surfaces_in path method location field (ds', vs').
Proof. intros Hd Hv. apply grows_surfaces. split; assumption. Qed.

Lemma compare_endpoint_missing (fuel : nat) (path method : string)
  (openai_op hadrian_op : json) (self self' : ConformanceChecker.t)
  (compared : EndpointDiff.t * list Violation.t) :
  checker_sound odoc hdoc self ->
  _compare_endpoint fuel path method openai_op hadrian_op self = Ok (compared, self') ->
  checker_sound odoc hdoc self'
  /\ EndpointDiff.path (fst compared) = path
  /\ EndpointDiff.method (fst compared) = Str.upper method
  /\ (forall location f,
        missing_at odoc hdoc openai_op hadrian_op location f ->
        surfaces_in path (Str.upper method) location f
          (diffs_at location (fst compared), snd compared))
  /\ only_undocumented (snd compared)
  /\ (forall location,
        diffs_covered path (Str.upper method) location
          (diffs_at location (fst compared), snd compared)).
Proof.
  unfold _compare_endpoint. intros Hsound Hrun. inv_run.
  match goal with
  | Hq : compare_body _ _ _ "request" _ _ _ = Ok (?req, _),
    Hp : compare_body _ _ _ "response" _ _ _ = Ok (?resp, _),
    Hs : compare_params _ _ _ _ = Ok ?par |- _ =>
      destruct (compare_body_missing _ _ _ _ _ _ _ _ _ Hsound Hq)
        as (Hsound1 & Hreq & Hreq_only & Hreq_covered);
      destruct (compare_body_missing _ _ _ _ _ _ _ _ _ Hsound1 Hp)
        as (Hsound2 & Hresp & Hresp_only & Hresp_covered);
      destruct (compare_params_missing _ _ _ _ _ Hs)
        as (Hpar & Hpar_only & Hpar_covered);
      destruct req as [req_diffs req_violations];
      destruct resp as [resp_diffs resp_violations];
      destruct par as [par_diffs par_violations]
  end.
  cbn [fst snd] in *.
  split; [assumption |]. split; [reflexivity |]. split; [reflexivity |].
  split; [| split].
  - intros location f Hmiss.
    destruct Hmiss as [location ro rh f Hcmp Hfield | ops hps name param Hop Hhp Hin Hmem].
    + destruct Hcmp as [ob hb ro rh Hob Hhb Hto Hth Hro Hrh
                       | ob hb ro rh Hob Hhb Hto Hth Hro Hrh].
      * match goal with
        | Ho : request_body_schema openai_op = Ok ?x,
          Hh : request_body_schema hadrian_op = Ok ?y |- _ =>
            assert (x = ob) by congruence; assert (y = hb) by congruence; subst x y
        end.
        eapply surfaces_in_part; [| | eapply Hreq; eassumption].
        -- apply incl_refl.
        -- apply incl_appl, incl_refl.
      * match goal with
        | Ho : response_body_schema openai_op = Ok ?x,
          Hh : response_body_schema hadrian_op = Ok ?y |- _ =>
            assert (x = ob) by congruence; assert (y = hb) by congruence; subst x y
        end.
        eapply surfaces_in_part; [| | eapply Hresp; eassumption].
        -- apply incl_refl.
        -- apply incl_appr, incl_appl, incl_refl.
    + eapply surfaces_in_part; [| | eapply Hpar; eassumption].
      * apply incl_refl.
      * apply incl_appr, incl_appr, incl_refl.
  - repeat apply only_undocumented_app; assumption.
  - intros location. unfold diffs_at.
    destruct (String.eqb location "request") eqn:Hq;
      [| destruct (String.eqb location "response") eqn:Hp;
         [| destruct (String.eqb location "param") eqn:Hs]];
      cbn [EndpointDiff.request_diffs EndpointDiff.response_diffs
           EndpointDiff.param_diffs].
    + apply String.eqb_eq in Hq. subst location.
      eapply diffs_covered_other; [| | exact Hreq_covered]; cbn [fst snd].
      * intros d Hd. left. exact Hd.
      * apply incl_appl, incl_refl.
    + apply String.eqb_eq in Hp. subst location.
      eapply diffs_covered_other; [| | exact Hresp_covered]; cbn [fst snd].
      * intros d Hd. left. exact Hd.
      * apply incl_appr, incl_appl, incl_refl.
    + apply String.eqb_eq in Hs. subst location.
      eapply diffs_covered_other; [| | exact Hpar_covered]; cbn [fst snd].
      * intros d Hd. left. exact Hd.
      * apply incl_appr, incl_appr, incl_refl.
    + intros d [].
Qed.

End EndpointMissing.

(** ** The report *)

(** What the report has for a missing field of [(path, method, location)]:
    an endpoint of that path and method with a missing-in-target diff of the
    field in its list for the location, and an undocumented-missing violation
    when the key is not in the table. *)
Definition reported (path method location field : string)
  (report : ConformanceReport.t) : Prop :=
  (exists ed d,
     In ed (ConformanceReport.endpoints_with_diffs report)
     /\ EndpointDiff.path ed = path /\ EndpointDiff.method ed = method
     /\ In d (diffs_at location ed) /\ missing_diff_of field d)
  /\ (documented (path, method, location, field) = false ->
      exists v, In v (ConformanceReport.violations report)
                /\ undocumented_missing_at path method location field v).

(** Every missing-in-target diff of the report whose key is not in the table
    has its undocumented-missing violation in the report, and every
    undocumented-missing violation of the report is about a key that is not
    in the table. *)
Definition report_covered (report : ConformanceReport.t) : Prop :=
  only_undocumented (ConformanceReport.violations report)
  /\ forall ed location d,
       In ed (ConformanceReport.endpoints_with_diffs report) ->
       In d (diffs_at location ed) ->
       SchemaDiff.diff_type d = MISSING_IN_HADRIAN ->
       documented (EndpointDiff.path ed, EndpointDiff.method ed, location,
                   SchemaDiff.field d) = false ->
       exists v, In v (ConformanceReport.violations report)
                 /\ undocumented_missing_at (EndpointDiff.path ed) (EndpointDiff.method ed)
                      location (SchemaDiff.field d) v.

(** The second report has the endpoints and violations of the first. *)
Definition report_grows (r r' : ConformanceReport.t) : Prop :=
  incl (ConformanceReport.endpoints_with_diffs r) (ConformanceReport.endpoints_with_diffs r')
  /\ incl (ConformanceReport.violations r) (ConformanceReport.violations r').

Lemma report_grows_refl (r : ConformanceReport.t) : report_grows r r.
Proof. split; apply incl_refl. Qed.

Lemma report_grows_trans (r1 r2 r3 : ConformanceReport.t) :
  report_grows r1 r2 -> report_grows r2 r3 -> report_grows r1 r3.
Proof. intros [He Hv] [He' Hv']. split; eapply incl_tran; eassumption. Qed.

Lemma report_grows_reported (path method location field : string)
  (r r' : ConformanceReport.t) :
  report_grows r r' -> reported path method location field r ->
  reported path method location field r'.
Proof.
  intros [He Hv] [(ed & d & Hed & Hrest) Hviol]. split.
  - exists ed, d. split; [apply He; exact Hed | exact Hrest].
  - intros Hdoc. destruct (Hviol Hdoc) as [v [Hvin Hat]].
    exists v. split; [apply Hv; exact Hvin | exact Hat].
Qed.

(** A loop on a state with invariant [Inv] whose every turn moves the
    accumulator up in the preorder [le], keeps [K], and establishes [Q] for
    the item of the turn; [Q] is kept by moving up. *)
Lemma foldS_each {S A B : Type} (Inv : S -> Prop) (le : B -> B -> Prop)
  (K : B -> Prop) (Q : A -> B -> Prop) (f : B -> A -> ST S B) (l : list A) :
  (forall acc, le acc acc) ->
  (forall a b c, le a b -> le b c -> le a c) ->
  (forall x a b, le a b -> Q x a -> Q x b) ->
  (forall acc x s acc' s', Inv s -> f acc x s = Ok (acc', s') ->
     Inv s' /\ le acc acc' /\ (K acc -> K acc') /\ Q x acc') ->
  forall acc s acc' s', Inv s -> foldS f l acc s = Ok (acc', s') ->
    Inv s' /\ le acc acc' /\ (K acc -> K acc') /\ forall x, In x l -> Q x acc'.
Proof.
  intros Hrefl Htrans Hup Hf.
  induction l as [|x l IH]; intros acc s acc' s' Hinv Hrun; simpl in Hrun.
  - inv_run. split; [assumption |]. split; [apply Hrefl |]. split; [auto |].
    intros x [].
  - inv_run.
    match goal with
    | H1 : f _ x _ = Ok (?b, ?t), H2 : foldS f l ?b ?t = Ok _ |- _ =>
        destruct (Hf _ _ _ _ _ Hinv H1) as (Hinv1 & Hle1 & HK1 & HQ1);
        destruct (IH _ _ _ _ Hinv1 H2) as (Hinv2 & Hle2 & HK2 & HQ2)
    end.
    split; [assumption |]. split; [eapply Htrans; eassumption |].
    split; [auto |].
    intros y [<- | Hy]; [eapply Hup; eassumption | apply HQ2; exact Hy].
Qed.

Lemma getitem_contains (v : json) (k : string) (x : json) :
  Py.getitem v k = Ok x -> Py.contains k v = Ok true.
Proof.
  destruct v as [| ? | ? | ? | ? | d]; try discriminate. simpl.
  destruct (Dict.get k d) eqn:Hget; [| discriminate].
  intros _. rewrite (dict_get_mem _ _ _ Hget). reflexivity.
Qed.

Lemma diffs_at_cases (location : string) (ed : EndpointDiff.t) (d : SchemaDiff.t) :
  In d (diffs_at location ed) ->
  In d (EndpointDiff.request_diffs ed) \/ In d (EndpointDiff.response_diffs ed)
  \/ In d (EndpointDiff.param_diffs ed).
Proof.
  unfold diffs_at.
  destruct (String.eqb location "request"); [auto |].
  destruct (String.eqb location "response"); [auto |].
  destruct (String.eqb location "param"); [auto |].
  intros [].
Qed.

Section ReportMissing.
Context `{PySet}.
Import ConformanceChecker.
Variables odoc hdoc : json.

(** What [check_method] leaves in the report for the method. *)
Definition method_reported (path : string) (openai_methods hadrian_methods : json)
  (method : string) (report : ConformanceReport.t) : Prop :=
  Py.contains method openai_methods = Ok true ->
  _is_method_out_of_scope path method = false ->
  forall openai_op hadrian_op,
    Py.getitem openai_methods method = Ok openai_op ->
    Py.getitem hadrian_methods method = Ok hadrian_op ->
    forall location f,
      missing_at odoc hdoc openai_op hadrian_op location f ->
      reported path (Str.upper method) location f report.

Definition path_reported (hadrian_paths : json) (item : string * json)
  (report : ConformanceReport.t) : Prop :=
  _is_out_of_scope (fst item) = false ->
  forall hadrian_methods,
    Py.get hadrian_paths (hadrian_path_of (fst item)) (JObj []) = Ok hadrian_methods ->
    forall method, In method METHODS ->
      method_reported (fst item) (snd item) hadrian_methods method report.

Lemma method_reported_grows (path : string) (openai_methods hadrian_methods : json)
  (method : string) (r r' : ConformanceReport.t) :
  report_grows r r' ->
  method_reported path openai_methods hadrian_methods method r ->
  method_reported path openai_methods hadrian_methods method r'.
Proof.
  intros Hgrows Hm Hhas Hscope oop hop Hoop Hhop location f Hmiss.
  eapply report_grows_reported; [exact Hgrows |]. eapply Hm; eassumption.
Qed.

Lemma path_reported_grows (hadrian_paths : json) (item : string * json)
  (r r' : ConformanceReport.t) :
  report_grows r r' ->
  path_reported hadrian_paths item r -> path_reported hadrian_paths item r'.
Proof.
  intros Hgrows Hitem Hscope hms Hhms m Hm.
  eapply method_reported_grows; [exact Hgrows |]. eapply Hitem; eassumption.
Qed.

Lemma report_covered_add (report : ConformanceReport.t) (ed : EndpointDiff.t)
  (vs : list Violation.t) :
  only_undocumented vs ->
  (forall location,
     diffs_covered (EndpointDiff.path ed) (EndpointDiff.method ed) location
       (diffs_at location ed, vs)) ->
  report_covered report ->
  report_covered (add_endpoint_diff ed (add_violations vs (count_checked report))).
Proof.
  intros Hvs Hed [Honly Hcovered]. split; cbn.
  - apply only_undocumented_app; assumption.
  - intros ed' location d Hin Hd Htype Hdoc.
    apply in_app_or in Hin as [Hin | [<- | []]].
    + destruct (Hcovered ed' location d Hin Hd Htype Hdoc) as [v [Hv Hat]].
      exists v. split; [apply in_or_app; left; exact Hv | exact Hat].
    + destruct (Hed location d Hd Htype Hdoc) as [v [Hv Hat]].
      exists v. split; [apply in_or_app; right; exact Hv | exact Hat].
Qed.

Lemma report_covered_violations (report : ConformanceReport.t) (vs : list Violation.t) :
  only_undocumented vs ->
  report_covered report ->
  report_covered (count_conformant (add_violations vs (count_checked report))).
Proof.
  intros Hvs [Honly Hcovered]. split; cbn.
  - apply only_undocumented_app; assumption.
  - intros ed' location d Hin Hd Htype Hdoc.
    destruct (Hcovered ed' location d Hin Hd Htype Hdoc) as [v [Hv Hat]].
    exists v. split; [apply in_or_app; left; exact Hv | exact Hat].
Qed.

Lemma check_method_missing (fuel : nat) (openai_path : string)
  (openai_methods hadrian_methods : json) (report : ConformanceReport.t)
  (method : string) (self self' : ConformanceChecker.t) (report' : ConformanceReport.t) :
  checker_sound odoc hdoc self ->
  check_method fuel openai_path openai_methods hadrian_methods report method self
    = Ok (report', self') ->
  checker_sound odoc hdoc self'
  /\ report_grows report report'
  /\ (report_covered report -> report_covered report')
  /\ method_reported openai_path openai_methods hadrian_methods method report'.
Proof.
  unfold check_method, method_reported. intros Hsound Hrun. inv_run.
  match goal with
  | Hc : Py.contains method openai_methods = Ok ?b |- _ =>
      rename Hc into Hin_openai; destruct b
  end; cbn [negb] in *.
  2: { inv_run. split; [assumption |]. split; [apply report_grows_refl |].
       split; [auto |]. intros Hx. congruence. }
  destruct (_is_method_out_of_scope openai_path method).
  { inv_run. split; [assumption |]. split; [apply report_grows_refl |].
    split; [auto |]. intros _ Hx. discriminate Hx. }
  inv_run.
  match goal with
  | Hc : Py.contains method hadrian_methods = Ok ?b |- _ =>
      rename Hc into Hin_hadrian; destruct b
  end; cbn [negb] in *.
  2: { inv_run. split; [assumption |].
       split; [split; cbn; apply incl_appl, incl_refl |].
       split.
       - intros Hcov.
         apply (report_covered_add report (missing_endpoint_diff openai_path method)
                  [missing_endpoint openai_path method]); [| | exact Hcov].
         + intros v [<- | []] Htype. discriminate Htype.
         + intros location d Hd. apply diffs_at_cases in Hd. cbn in Hd. tauto.
       - intros _ _ oop hop _ Hhop.
         apply getitem_contains in Hhop. congruence. }
  inv_run.
  match goal with
  | Hcmp : _compare_endpoint _ _ _ _ _ _ = Ok (?cmp, ?st) |- _ =>
      destruct (compare_endpoint_missing odoc hdoc _ _ _ _ _ _ _ _ Hsound Hcmp)
        as (Hsound1 & Hpath & Hmethod & Hsurf & Honly & Hcovered);
      destruct cmp as [ed vs]
  end.
  cbn [fst snd] in *.
  pose proof (conj Hpath Hmethod) as Hkey. clear Hpath Hmethod.
  match goal with
  | Hrest : (if ?any then _ else _) _ = Ok _ |- _ => destruct any eqn:Hany
  end; inv_run; destruct Hkey as [Hpath Hmethod].
  - split; [assumption |].
    split; [split; cbn; apply incl_appl, incl_refl |].
    split.
    + apply report_covered_add; [exact Honly |].
      rewrite Hpath, Hmethod. exact Hcovered.
    + intros _ _ oop hop Hoop Hhop location f Hmiss.
      match goal with
      | Ho : Py.getitem openai_methods method = Ok ?x,
        Hh : Py.getitem hadrian_methods method = Ok ?y |- _ =>
          assert (x = oop) by congruence; assert (y = hop) by congruence; subst x y
      end.
      destruct (Hsurf location f Hmiss) as [(d & Hd & Hmd) Hviol]. cbn [fst snd] in *.
      split.
      * exists ed, d. split; [cbn; apply in_or_app; right; left; reflexivity |].
        auto.
      * intros Hdoc. destruct (Hviol Hdoc) as [v [Hv Hat]].
        exists v. split; [cbn; apply in_or_app; right; exact Hv | exact Hat].
  - split; [assumption |].
    split; [split; cbn; [apply incl_refl | apply incl_appl, incl_refl] |].
    split.
    + apply report_covered_violations. exact Honly.
    + intros _ _ oop hop Hoop Hhop location f Hmiss.
      match goal with
      | Ho : Py.getitem openai_methods method = Ok ?x,
        Hh : Py.getitem hadrian_methods method = Ok ?y |- _ =>
          assert (x = oop) by congruence; assert (y = hop) by congruence; subst x y
      end.
      destruct (Hsurf location f Hmiss) as [(d & Hd & _) _]. cbn [fst snd] in Hd.
      apply diffs_at_cases in Hd.
      destruct (EndpointDiff.request_diffs ed), (EndpointDiff.response_diffs ed),
        (EndpointDiff.param_diffs ed); try discriminate Hany.
      simpl in Hd. tauto.
Qed.

Lemma check_path_missing (fuel : nat) (hadrian_paths : json)
  (report : ConformanceReport.t) (item : string * json)
  (self self' : ConformanceChecker.t) (report' : ConformanceReport.t) :
  checker_sound odoc hdoc self ->
  check_path fuel None hadrian_paths report item self = Ok (report', self') ->
  checker_sound odoc hdoc self'
  /\ report_grows report report'
  /\ (report_covered report -> report_covered report')
  /\ path_reported hadrian_paths item report'.
Proof.
  unfold check_path, path_reported. intros Hsound Hrun.
  destruct (_is_out_of_scope (fst item)).
  { inv_run. split; [assumption |]. split; [split; cbn; apply incl_refl |].
    split; [| intros Hx; discriminate Hx].
    intros [Honly Hcov]. split; cbn; assumption. }
  cbn [filtered_out] in Hrun. inv_run.
  match goal with
  | Hget : Py.get hadrian_paths _ _ = Ok ?hms, Hloop : foldS _ METHODS _ _ = Ok _ |- _ =>
      rename hms into hadrian_methods;
      apply (foldS_each (checker_sound odoc hdoc) report_grows report_covered
               (method_reported (fst item) (snd item) hadrian_methods)) in Hloop;
      [destruct Hloop as (Hsound1 & Hgrows & Hcov & Hmethods) | | | | | exact Hsound]
  end.
  - split; [assumption |]. split; [assumption |]. split; [assumption |].
    intros _ hms Hhms m Hm.
    assert (hms = hadrian_methods) by congruence. subst hms. apply Hmethods. exact Hm.
  - apply report_grows_refl.
  - apply report_grows_trans.
  - intros m r r'. apply method_reported_grows.
  - intros acc m s acc' s' Hs Hstep.
    eapply check_method_missing; eassumption.
Qed.

Lemma check_hadrian_only_endpoints (openai_paths : dict) (report : ConformanceReport.t)
  (hadrian_path : json) (report' : ConformanceReport.t) :
  check_hadrian_only openai_paths report hadrian_path = Ok report' ->
  R.endpoints_with_diffs report' = R.endpoints_with_diffs report.
Proof.
  unfold check_hadrian_only. intros Hrun.
  repeat (first [progress inv_run | split_run]); reflexivity.
Qed.

Lemma check_conformance_missing (fuel : nat)
  (self self' : ConformanceChecker.t) (report : ConformanceReport.t)
  (openai_paths : dict) (hadrian_paths : json) :
  checker_sound odoc hdoc self ->
  check_conformance fuel None self = Ok (report, self') ->
  Py.get odoc "paths" (JObj []) = Ok (JObj openai_paths) ->
  Py.get hdoc "paths" (JObj []) = Ok hadrian_paths ->
  report_covered report
  /\ forall item, In item openai_paths -> path_reported hadrian_paths item report.
Proof.
  intros Hsound Hrun Hopenai Hhadrian.
  unfold check_conformance in Hrun. inv_run.
  destruct Hsound as (Ho & Hh & Hsound').
  assert (Hsound : checker_sound odoc hdoc s) by (split; [| split]; assumption).
  rewrite Ho in *. rewrite Hh in *.
  match goal with
  | Hp : Py.get odoc "paths" _ = Ok ?x |- _ =>
      assert (x = JObj openai_paths) by congruence; subst x
  end.
  match goal with
  | Hp : Py.get hdoc "paths" _ = Ok ?x |- _ =>
      assert (x = hadrian_paths) by congruence; subst x
  end.
  match goal with
  | Hi : Py.items (JObj openai_paths) = Ok ?x |- _ =>
      simpl in Hi; inversion Hi; subst x; clear Hi
  end.
  match goal with
  | Hloop2 : foldR (check_hadrian_only _) _ ?r = Ok report |- _ =>
      assert (Hsame : R.violations report = R.violations r
                      /\ R.endpoints_with_diffs report = R.endpoints_with_diffs r)
  end.
  { eapply (foldR_acc_invariant
              (fun r' => R.violations r' = R.violations _
                         /\ R.endpoints_with_diffs r' = R.endpoints_with_diffs _));
      [| split; reflexivity | eassumption].
    intros ? ? ? [Hv He] Hstep. rewrite <- Hv, <- He. split.
    - eapply check_hadrian_only_violations; eassumption.
    - eapply check_hadrian_only_endpoints; eassumption. }
  destruct Hsame as [Hviolations Hendpoints].
  match goal with
  | Hloop : foldS (check_path _ _ _) _ _ _ = Ok _ |- _ =>
      apply (foldS_each (checker_sound odoc hdoc) report_grows report_covered
               (path_reported hadrian_paths)) in Hloop;
      [destruct Hloop as (_ & _ & Hcov & Hpaths) | | | | | exact Hsound]
  end.
  - split.
    + destruct Hcov as [Honly Hcovered].
      { split; cbn; [apply only_undocumented_nil | intros ? ? ? []]. }
      split; [rewrite Hviolations; exact Honly |].
      rewrite Hviolations, Hendpoints. exact Hcovered.
    + intros item Hitem. eapply path_reported_grows; [| apply Hpaths; exact Hitem].
      split; [rewrite Hendpoints | rewrite Hviolations]; apply incl_refl.
  - apply report_grows_refl.
  - apply report_grows_trans.
  - intros item r r'. apply path_reported_grows.
  - intros acc item s0 acc' s' Hs Hstep.
    eapply check_path_missing; eassumption.
Qed.

End ReportMissing.

Section MissingDiffs.
Context `{PySet}.
Import ConformanceChecker.

(** C5.  In the report of the full check (no endpoint filter, on a checker
    fresh from [__init__]): for every missing-in-target diff of an endpoint
    of the report, the report has an undocumented-missing violation of
    (reference path, method, location, field name) if and only if that tuple
    is not in the documented-exceptions table, so none when it is; and every
    field or query parameter that the reference operation of a compared
    endpoint has and the implementation operation lacks has a
    missing-in-target diff in the list for its location of an endpoint of
    the report, whether the tuple is in the table or not. *)
Theorem missing_diff_violation_iff (fuel : nat) (odoc hdoc : json) (verbose : bool)
  (self self' : ConformanceChecker.t) (report : ConformanceReport.t)
  (openai_paths hadrian_paths : dict) :
  init odoc hdoc verbose = Ok self ->
  check_conformance fuel None self = Ok (report, self') ->
  Py.get odoc "paths" (JObj []) = Ok (JObj openai_paths) ->
  Py.get hdoc "paths" (JObj []) = Ok (JObj hadrian_paths) ->
  (forall ed location d,
     In ed (R.endpoints_with_diffs report) ->
     In d (diffs_at location ed) ->
     SchemaDiff.diff_type d = MISSING_IN_HADRIAN ->
     ((exists v, In v (R.violations report)
                 /\ undocumented_missing_at (EndpointDiff.path ed) (EndpointDiff.method ed)
                      location (SchemaDiff.field d) v)
      <-> documented (EndpointDiff.path ed, EndpointDiff.method ed, location,
                      SchemaDiff.field d) = false))
  /\ (forall path method openai_op hadrian_op location f,
        compared openai_paths hadrian_paths path method openai_op hadrian_op ->
        missing_at odoc hdoc openai_op hadrian_op location f ->
        exists ed d,
          In ed (R.endpoints_with_diffs report)
          /\ EndpointDiff.path ed = path /\ EndpointDiff.method ed = Str.upper method
          /\ In d (diffs_at location ed) /\ missing_diff_of f d).
Proof.
  intros Hinit Hrun Hopenai Hhadrian.
  destruct (check_conformance_missing odoc hdoc fuel self self' report openai_paths
              (JObj hadrian_paths) (init_sound _ _ _ _ Hinit) Hrun Hopenai Hhadrian)
    as [[Honly Hcovered] Hpaths].
  split.
  - intros ed location d Hed Hd Htype. split.
    + intros (v & Hv & Hkind & Hvpath & Hvmethod & Hvlocation & Hvfield).
      specialize (Honly v Hv Hkind).
      rewrite Hvpath, Hvmethod, Hvlocation, Hvfield in Honly. exact Honly.
    + intros Hdoc. exact (Hcovered ed location d Hed Hd Htype Hdoc).
  - intros path method oop hop location f (methods & Hscope & Hoop & Hhop) Hmiss.
    destruct Hscope as (Hin & Hpscope & Hmethod & Hhas & Hmscope).
    apply (Hpaths (path, methods) Hin Hpscope _ eq_refl method Hmethod Hhas Hmscope
             oop hop Hoop Hhop location f Hmiss).
Qed.

End MissingDiffs.

(** [POST /widgets] of the example documents: the reference request body has
    [name], the implementation's has not, and [name] is not in the table. *)
Lemma example_widgets_compared :
  compared CheckerExamples.openai_paths CheckerExamples.hadrian_paths "/widgets" "post"
    CheckerExamples.openai_post CheckerExamples.hadrian_post.
Proof.
  exists (JObj [("post", CheckerExamples.openai_post)]).
  split; [| split; reflexivity].
  split; [left; reflexivity |]. split; [reflexivity |].
  split; [simpl; auto |]. split; reflexivity.
Qed.

Lemma example_widgets_missing_name :
  missing_at CheckerExamples.openai_doc CheckerExamples.hadrian_doc
    CheckerExamples.openai_post CheckerExamples.hadrian_post "request" "name".
Proof.
  eapply missing_body_field.
  - eapply compared_request; try reflexivity.
    + exists 4. reflexivity.
    + exists 4. reflexivity.
  - eapply missing_here; [left; reflexivity | reflexivity].
Qed.

(** The report of the example run has, for [POST /widgets], the
    missing-in-target diff of [name] in the request list, and its
    undocumented-missing violation. *)
Lemma missing_diff_violation_iff_witness :
  match ConformanceChecker.check_conformance 8 None CheckerExamples.checker with
  | Ok (report, _) =>
      exists ed d v,
        In ed (ConformanceReport.endpoints_with_diffs report)
        /\ EndpointDiff.path ed = "/widgets" /\ EndpointDiff.method ed = "POST"
        /\ In d (diffs_at "request" ed) /\ missing_diff_of "name" d
        /\ In v (ConformanceReport.violations report)
        /\ undocumented_missing_at "/widgets" "POST" "request" "name" v
  | Raise _ => False
  end.
Proof.
  destruct (ConformanceChecker.check_conformance 8 None CheckerExamples.checker)
    as [[report self']|e] eqn:Hrun.
  - destruct (missing_diff_violation_iff 8 CheckerExamples.openai_doc
                CheckerExamples.hadrian_doc false CheckerExamples.checker self' report
                CheckerExamples.openai_paths CheckerExamples.hadrian_paths
                example_checker_init Hrun eq_refl eq_refl) as [Hiff Hdiff].
    destruct (Hdiff "/widgets" "post" _ _ "request" "name"
                example_widgets_compared example_widgets_missing_name)
      as (ed & d & Hed & Hpath & Hmethod & Hd & Hkind & Hfield).
    destruct (proj2 (Hiff ed "request" d Hed Hd Hkind)) as (v & Hv & Hat).
    { rewrite Hpath, Hmethod, Hfield. reflexivity. }
    rewrite Hpath, Hmethod, Hfield in Hat.
    exists ed, d, v.
    split; [exact Hed |]. split; [exact Hpath |]. split; [exact Hmethod |].
    split; [exact Hd |]. split; [split; assumption |]. split; [exact Hv | exact Hat].
  - vm_compute in Hrun. discriminate.
Defined.
